(** * vibe-wfm: the scheduling grid of [App.tsx], embedded and checked

    The development follows the latest revision of [App.tsx] (the last
    document of [src/README.md]; [src/src/App.tsx] is an earlier revision
    with the same utilities and without the edit mode, the virtualizer and
    the persistence effects): time and date utilities, the shift index, the
    virtualizer range, the resize, drop and modal-save handlers, and the
    two persistence effects.

    JavaScript numbers.  A [number] is an IEEE double in the source.  Here a
    finite double is an exact rational, both zeros are one value, and [NaN]
    and the two infinities are kept as values of their own, because the code
    can produce and store them.  Rounding error and overflow of doubles are
    not represented. *)

From Stdlib Require Import ZArith QArith Qround Qminmax Qabs Bool List Ascii String Lia Lqa.
From Stdlib Require Import Sorting.Sorted Sorting.Permutation.
Import ListNotations.

Local Open Scope Z_scope.

(* ================================================================== *)
(** ** JavaScript numbers *)

Inductive number : Type :=
| NaN
| Inf (negative : bool)
| Fin (q : Q).

Definition Int (z : Z) : number := Fin (inject_Z z).

Definition Qzero (q : Q) : bool := Qnum q =? 0.
Definition Qnegative (q : Q) : bool := Qnum q <? 0.
Definition Qlt_bool (p q : Q) : bool := negb (Qle_bool q p).

(** [-x] *)
Definition neg (x : number) : number :=
  match x with
  | NaN => NaN
  | Inf s => Inf (negb s)
  | Fin q => Fin (- q)
  end.

(** [x + y] *)
Definition add (x y : number) : number :=
  match x, y with
  | NaN, _ | _, NaN => NaN
  | Inf a, Inf b => if Bool.eqb a b then Inf a else NaN
  | Inf a, Fin _ => Inf a
  | Fin _, Inf b => Inf b
  | Fin p, Fin q => Fin (p + q)
  end.

(** [x - y] *)
Definition sub (x y : number) : number := add x (neg y).

(** [x * y] *)
Definition mul (x y : number) : number :=
  match x, y with
  | NaN, _ | _, NaN => NaN
  | Inf a, Inf b => Inf (xorb a b)
  | Inf a, Fin q | Fin q, Inf a =>
      if Qzero q then NaN else Inf (xorb a (Qnegative q))
  | Fin p, Fin q => Fin (p * q)
  end.

(** [x / y]; a zero divisor counts as [+0]. *)
Definition div (x y : number) : number :=
  match x, y with
  | NaN, _ | _, NaN => NaN
  | Inf _, Inf _ => NaN
  | Inf a, Fin q => Inf (xorb a (Qnegative q))
  | Fin _, Inf _ => Fin 0
  | Fin p, Fin q =>
      if Qzero q then (if Qzero p then NaN else Inf (Qnegative p))
      else Fin (p / q)
  end.

(** [x < y], [x > y], [x <= y]: every comparison with [NaN] is false. *)
Definition lt (x y : number) : bool :=
  match x, y with
  | NaN, _ | _, NaN => false
  | Inf a, Inf b => a && negb b
  | Inf a, Fin _ => a
  | Fin _, Inf b => negb b
  | Fin p, Fin q => Qlt_bool p q
  end.

Definition gt (x y : number) : bool := lt y x.

Definition le (x y : number) : bool :=
  match x, y with
  | NaN, _ | _, NaN => false
  | Inf a, Inf b => a || negb b
  | Inf a, Fin _ => a
  | Fin _, Inf b => negb b
  | Fin p, Fin q => Qle_bool p q
  end.

(** [x === y] on numbers. *)
Definition strict_eq (x y : number) : bool :=
  match x, y with
  | Inf a, Inf b => Bool.eqb a b
  | Fin p, Fin q => Qeq_bool p q
  | _, _ => false
  end.

(** [Math.max(x, y)] and [Math.min(x, y)]: [NaN] if either argument is. *)
Definition Math_max (x y : number) : number :=
  match x, y with
  | NaN, _ | _, NaN => NaN
  | _, _ => if lt x y then y else x
  end.

Definition Math_min (x y : number) : number :=
  match x, y with
  | NaN, _ | _, NaN => NaN
  | _, _ => if lt y x then y else x
  end.

(** [Math.floor], [Math.ceil], and [Math.round] (ties go up). *)
Definition Math_floor (x : number) : number :=
  match x with
  | Fin q => Int (Qfloor q)
  | _ => x
  end.

Definition Math_ceil (x : number) : number :=
  match x with
  | Fin q => Int (Qceiling q)
  | _ => x
  end.

Definition Math_round (x : number) : number :=
  match x with
  | Fin q => Int (Qfloor (q + (1 # 2)))
  | _ => x
  end.

(** A possibly [undefined] number, as a destructured array element is:
    [None] is [undefined]. *)
Definition ToNumber (v : option number) : number :=
  match v with
  | Some x => x
  | None => NaN
  end.

(** [Number.isNaN(v)]: no coercion, so [undefined] is not [NaN]. *)
Definition Number_isNaN (v : option number) : bool :=
  match v with
  | Some NaN => true
  | _ => false
  end.

(* ================================================================== *)
(** ** Strings: [split], [trim], [padStart], [String(n)] and [Number(s)]

    A string is a sequence of 8-bit characters; the white space that
    [trim] and [Number] strip is the ASCII white space. *)

Local Open Scope string_scope.
Local Open Scope Z_scope.

(** [s.split(sep)] for a one-character separator: never empty. *)
Fixpoint split (sep : ascii) (s : string) : list string :=
  match s with
  | EmptyString => [EmptyString]
  | String c s' =>
      if Ascii.eqb c sep then EmptyString :: split sep s'
      else match split sep s' with
           | [] => [String c EmptyString]
           | p :: ps => String c p :: ps
           end
  end.

Definition code (c : ascii) : Z := Z.of_N (N_of_ascii c).

Definition is_white (c : ascii) : bool :=
  let n := code c in ((9 <=? n) && (n <=? 13)) || (n =? 32).

Definition is_digit (c : ascii) : bool :=
  let n := code c in (48 <=? n) && (n <=? 57).

Fixpoint trimStart (s : string) : string :=
  match s with
  | EmptyString => EmptyString
  | String c s' => if is_white c then trimStart s' else s
  end.

Fixpoint trimEnd (s : string) : string :=
  match s with
  | EmptyString => EmptyString
  | String c s' =>
      match trimEnd s' with
      | EmptyString => if is_white c then EmptyString else String c EmptyString
      | t => String c t
      end
  end.

Definition trim (s : string) : string := trimEnd (trimStart s).

Fixpoint replicate (n : nat) (c : ascii) : string :=
  match n with
  | O => EmptyString
  | S k => String c (replicate k c)
  end.

(** [s.padStart(targetLength, pad)] for a one-character pad. *)
Definition padStart (s : string) (targetLength : nat) (pad : ascii) : string :=
  replicate (targetLength - String.length s) pad ++ s.

(** [String(z)] for an integral number below 1e21 in magnitude: a minus
    sign if negative, and the decimal digits. *)
Fixpoint string_of_uint (d : Decimal.uint) : string :=
  match d with
  | Decimal.Nil => EmptyString
  | Decimal.D0 d => String "0" (string_of_uint d)
  | Decimal.D1 d => String "1" (string_of_uint d)
  | Decimal.D2 d => String "2" (string_of_uint d)
  | Decimal.D3 d => String "3" (string_of_uint d)
  | Decimal.D4 d => String "4" (string_of_uint d)
  | Decimal.D5 d => String "5" (string_of_uint d)
  | Decimal.D6 d => String "6" (string_of_uint d)
  | Decimal.D7 d => String "7" (string_of_uint d)
  | Decimal.D8 d => String "8" (string_of_uint d)
  | Decimal.D9 d => String "9" (string_of_uint d)
  end.

Definition String_of_Z (z : Z) : string :=
  match Z.to_int z with
  | Decimal.Pos d => string_of_uint d
  | Decimal.Neg d => String "-" (string_of_uint d)
  end.

(** Value of a digit in a radix up to 16, if the character is one. *)
Definition digit_of (c : ascii) : option Z :=
  let n := code c in
  if (48 <=? n) && (n <=? 57) then Some (n - 48)
  else if (97 <=? n) && (n <=? 102) then Some (n - 87)
  else if (65 <=? n) && (n <=? 70) then Some (n - 55)
  else None.

(** All of [s] read as digits of [radix], most significant first. *)
Fixpoint radix_digits (radix : Z) (s : string) (acc : Z) : option Z :=
  match s with
  | EmptyString => Some acc
  | String c s' =>
      match digit_of c with
      | Some d => if d <? radix then radix_digits radix s' (radix * acc + d) else None
      | None => None
      end
  end.

Definition radix_literal (radix : Z) (s : string) : option Z :=
  match s with
  | EmptyString => None
  | _ => radix_digits radix s 0
  end.

(** [0x..], [0o..], [0b..] in either case, unsigned. *)
Definition nondecimal_literal (s : string) : option Z :=
  match s with
  | String "0" (String "x" r) | String "0" (String "X" r) => radix_literal 16 r
  | String "0" (String "o" r) | String "0" (String "O" r) => radix_literal 8 r
  | String "0" (String "b" r) | String "0" (String "B" r) => radix_literal 2 r
  | _ => None
  end.

(** The longest prefix of decimal digits: its value on top of [acc], how
    many digits it has on top of [n], and what follows it. *)
Fixpoint take_digits (s : string) (acc : Z) (n : nat) : Z * nat * string :=
  match s with
  | String c s' =>
      if is_digit c then take_digits s' (10 * acc + (code c - 48)) (S n)
      else (acc, n, s)
  | EmptyString => (acc, n, s)
  end.

(** [mantissa * 10 ^ scale] *)
Definition scaled (mantissa scale : Z) : Q :=
  match scale with
  | Z0 => inject_Z mantissa
  | Zpos _ => inject_Z (mantissa * 10 ^ scale)
  | Zneg p => mantissa # (10 ^ p)
  end.

(** The exponent part after the digits: nothing, or [e]/[E], a sign and
    at least one digit, up to the end of the string. *)
Definition exponent_part (s : string) : option Z :=
  match s with
  | EmptyString => Some 0
  | String c r =>
      if Ascii.eqb c "e" || Ascii.eqb c "E" then
        let '(sign, r') :=
          match r with
          | String "+" t => (1, t)
          | String "-" t => (-1, t)
          | _ => (1, r)
          end in
        match take_digits r' 0 0 with
        | (_, O, _) => None
        | (e, _, EmptyString) => Some (sign * e)
        | _ => None
        end
      else None
  end.

(** An unsigned decimal literal: [Infinity], or digits with an optional
    fraction and exponent (a dot needs a digit on one of its sides). *)
Definition unsigned_decimal (s : string) : number :=
  if String.eqb s "Infinity" then Inf false
  else
    let '(ip, ni, r1) := take_digits s 0 0 in
    let '(fp, nf, r2) :=
      match r1 with
      | String "." r => take_digits r ip 0
      | _ => (ip, O, r1)
      end in
    match (ni + nf)%nat with
    | O => NaN
    | _ =>
        match exponent_part r2 with
        | Some e => Fin (scaled fp (e - Z.of_nat nf))
        | None => NaN
        end
    end.

(** [Number(s)] on a string. *)
Definition Number (s : string) : number :=
  let t := trim s in
  match t with
  | EmptyString => Int 0
  | String "+" r => unsigned_decimal r
  | String "-" r => neg (unsigned_decimal r)
  | _ =>
      match nondecimal_literal t with
      | Some z => Int z
      | None => unsigned_decimal t
      end
  end.

(* ================================================================== *)
(** ** Time utilities *)

Definition MINUTES_IN_DAY : number := Int (24 * 60).
Definition SNAP_MINUTES : number := Int 15.
Definition MIN_SHIFT_MINUTES : number := Int 30.
Definition HOUR_WIDTH : number := Int 72.
Definition HOURS_length : number := Int 24.

Definition clamp (value min max : number) : number :=
  Math_min (Math_max value min) max.

Definition snapToStep_by (value step : number) : number :=
  mul (Math_round (div value step)) step.

(** [snapToStep(value)] with the default [step = SNAP_MINUTES], which is
    how every call in the source uses it. *)
Definition snapToStep (value : number) : number :=
  snapToStep_by value SNAP_MINUTES.

(** [clamp] on integers, for the integral minutes [formatTime] prints. *)
Definition Zclamp (value min max : Z) : Z := Z.min (Z.max value min) max.

(** [formatTime(minutes)] on integral minutes. *)
Definition formatTime (minutes : Z) : string :=
  let normalized := Zclamp minutes 0 (24 * 60) in
  let h := normalized / 60 in
  let m := normalized mod 60 in
  padStart (String_of_Z h) 2 "0" ++ ":" ++ padStart (String_of_Z m) 2 "0".

(** [parseTime(value)]: [None] is [null].  [h] and [m] are the first two
    elements of the mapped array; [m] is [undefined] when the string has no
    colon. *)
Definition parseTime (value : string) : option number :=
  let parts := map Number (split ":" value) in
  let h := nth_error parts 0 in
  let m := nth_error parts 1 in
  if Number_isNaN h || Number_isNaN m then None
  else if lt (ToNumber h) (Int 0) || gt (ToNumber h) (Int 23)
          || lt (ToNumber m) (Int 0) || gt (ToNumber m) (Int 59) then None
  else Some (add (mul (ToNumber h) (Int 60)) (ToNumber m)).

(* ================================================================== *)
(** ** Dates

    A [Date] built by [new Date(year, monthIndex, day)] is the local
    midnight of a calendar day, or the invalid date.  The calendar is the
    proleptic Gregorian one; time zones play no part. *)

Inductive Date : Type :=
| InvalidDate
| LocalDay (day : Z).

(** Day number (0 is 1970-01-01) of a civil date, [m] in 1..12. *)
Definition days_from_civil (y m d : Z) : Z :=
  let y' := if m <=? 2 then y - 1 else y in
  let era := y' / 400 in
  let yoe := y' - era * 400 in
  let mp := (m + 9) mod 12 in
  let doy := (153 * mp + 2) / 5 + d - 1 in
  let doe := yoe * 365 + yoe / 4 - yoe / 100 + doy in
  era * 146097 + doe - 719468.

(** Year, month (1..12) and day of month of a day number. *)
Definition civil_from_days (z : Z) : Z * Z * Z :=
  let z := z + 719468 in
  let era := z / 146097 in
  let doe := z - era * 146097 in
  let yoe := (doe - doe / 1460 + doe / 36524 - doe / 146096) / 365 in
  let doy := doe - (365 * yoe + yoe / 4 - yoe / 100) in
  let mp := (5 * doy + 2) / 153 in
  let d := doy - (153 * mp + 2) / 5 + 1 in
  let m := if mp <? 10 then mp + 3 else mp - 9 in
  let y := yoe + era * 400 in
  (if m <=? 2 then y + 1 else y, m, d).

(** Truncation towards zero, as the [Date] constructor applies to its
    arguments. *)
Definition Qtrunc (q : Q) : Z :=
  if Qnegative q then Qceiling q else Qfloor q.

(** [new Date(year, monthIndex, day)] *)
Definition new_Date (year monthIndex day : number) : Date :=
  match year, monthIndex, day with
  | Fin y, Fin m, Fin d =>
      let yi := Qtrunc y in
      let yr := if (0 <=? yi) && (yi <=? 99) then 1900 + yi else yi in
      let mi := Qtrunc m in
      let n := days_from_civil (yr + mi / 12) (mi mod 12 + 1) 1 + Qtrunc d - 1 in
      if Z.abs n <=? 100000000 then LocalDay n else InvalidDate
  | _, _, _ => InvalidDate
  end.

Definition getFullYear (date : Date) : number :=
  match date with
  | InvalidDate => NaN
  | LocalDay n => let '(y, _, _) := civil_from_days n in Int y
  end.

Definition getMonth (date : Date) : number :=
  match date with
  | InvalidDate => NaN
  | LocalDay n => let '(_, m, _) := civil_from_days n in Int (m - 1)
  end.

Definition getDate (date : Date) : number :=
  match date with
  | InvalidDate => NaN
  | LocalDay n => let '(_, _, d) := civil_from_days n in Int d
  end.

(** [x !== v] for a number [x] and a possibly [undefined] [v]. *)
Definition strict_neq (x : number) (v : option number) : bool :=
  match v with
  | Some y => negb (strict_eq x y)
  | None => true
  end.

(** [parseDateKey(value)]: [None] is [null]. *)
Definition parseDateKey (value : string) : option Date :=
  let parts := map Number (split "-" value) in
  let y := nth_error parts 0 in
  let m := nth_error parts 1 in
  let d := nth_error parts 2 in
  if Number_isNaN y || Number_isNaN m || Number_isNaN d then None
  else
    let date := new_Date (ToNumber y) (sub (ToNumber m) (Int 1)) (ToNumber d) in
    if strict_neq (getFullYear date) y
       || strict_neq (getMonth date) (Some (sub (ToNumber m) (Int 1)))
       || strict_neq (getDate date) d
    then None
    else Some date.

(* ================================================================== *)
(** ** Shifts and the shift index *)

Record Shift : Type := {
  id : string;
  employeeId : string;
  dateKey : string;
  title : string;
  start : number;
  end_ : number
}.

Definition dateCellKey (employeeId dateKey : string) : string :=
  employeeId ++ "|" ++ dateKey.

(** A [Map<string, Shift[]>]: the entries in insertion order, one per key. *)
Definition ShiftMap : Type := list (string * list Shift).

Fixpoint Map_get (key : string) (map : ShiftMap) : option (list Shift) :=
  match map with
  | [] => None
  | (k, v) :: rest => if String.eqb k key then Some v else Map_get key rest
  end.

Fixpoint Map_set (key : string) (v : list Shift) (map : ShiftMap) : ShiftMap :=
  match map with
  | [] => [(key, v)]
  | (k, w) :: rest =>
      if String.eqb k key then (k, v) :: rest else (k, w) :: Map_set key v rest
  end.

(** [Array.prototype.sort(cmp)], which is stable: each element goes in
    front of the first later element it does not compare greater than.  A
    comparator result that is not a positive number (zero, negative, [NaN])
    keeps the pair in its order. *)
Fixpoint sort_insert {A : Type} (cmp : A -> A -> number) (x : A) (l : list A) : list A :=
  match l with
  | [] => [x]
  | y :: l' => if gt (cmp x y) (Int 0) then y :: sort_insert cmp x l' else x :: l
  end.

Definition Array_sort {A : Type} (cmp : A -> A -> number) (l : list A) : list A :=
  fold_right (sort_insert cmp) [] l.

(** The loop body of [shiftsByEmployeeDate]: [list.push(shift)] grows the
    array the map holds under [key]. *)
Definition index_add (map : ShiftMap) (shift : Shift) : ShiftMap :=
  let key := dateCellKey (employeeId shift) (dateKey shift) in
  match Map_get key map with
  | Some list => Map_set key (list ++ [shift])%list map
  | None => Map_set key [shift] map
  end.

Definition shiftsByEmployeeDate (shifts : list Shift) : ShiftMap :=
  let map := fold_left index_add shifts [] in
  List.map (fun '(k, list) => (k, Array_sort (fun a b => sub (start a) (start b)) list)) map.

(** [getShiftsForCell], over the index of the current [shifts]. *)
Definition getShiftsForCell (shifts : list Shift) (employeeId dateKey : string) : list Shift :=
  match Map_get (dateCellKey employeeId dateKey) (shiftsByEmployeeDate shifts) with
  | Some list => list
  | None => []
  end.

(* ================================================================== *)
(** ** The virtualizer range *)

Module VirtualRange.
Record t : Type := { start : number; end_ : number }.
End VirtualRange.

Definition getVirtualRange
    (itemCount itemSize viewportStartPx viewportEndPx overscan : number) : VirtualRange.t :=
  if le itemCount (Int 0) then
    {| VirtualRange.start := Int 0; VirtualRange.end_ := Int (-1) |}
  else
    let safeStart := Math_max viewportStartPx (Int 0) in
    let safeEnd := Math_max viewportEndPx (Int 0) in
    let start := clamp (sub (Math_floor (div safeStart itemSize)) overscan)
                       (Int 0) (sub itemCount (Int 1)) in
    let end_ := clamp (add (Math_ceil (div safeEnd itemSize)) overscan)
                      (Int 0) (sub itemCount (Int 1)) in
    {| VirtualRange.start := start; VirtualRange.end_ := end_ |}.

(* ================================================================== *)
(** ** Resize *)

Inductive Edge : Type := edge_left | edge_right.

Module ResizeState.
Record t : Type := {
  shiftId : string;
  edge : Edge;
  originX : number;
  originStart : number;
  originEnd : number;
  pixelsPerHour : number
}.
End ResizeState.

(** [{...shift, start, end}] and [{...shift, employeeId, dateKey}] *)
Definition with_times (shift : Shift) (start' end' : number) : Shift :=
  {| id := id shift; employeeId := employeeId shift; dateKey := dateKey shift;
     title := title shift; start := start'; end_ := end' |}.

Definition with_cell (shift : Shift) (employeeId' dateKey' : string) : Shift :=
  {| id := id shift; employeeId := employeeId'; dateKey := dateKey';
     title := title shift; start := start shift; end_ := end_ shift |}.

(** [startResize]: the state the pointer-down on a handle captures. *)
Definition startResize (clientX : number) (shift : Shift) (edge : Edge)
    (pixelsPerHour : number) : ResizeState.t :=
  {| ResizeState.shiftId := id shift;
     ResizeState.edge := edge;
     ResizeState.originX := clientX;
     ResizeState.originStart := start shift;
     ResizeState.originEnd := end_ shift;
     ResizeState.pixelsPerHour := pixelsPerHour |}.

(** The update [onPointerMove] passes to [setShifts], for the resize state
    the effect closes over and the pointer's [clientX]. *)
Definition onPointerMove (resizeState : ResizeState.t) (clientX : number)
    (prev : list Shift) : list Shift :=
  let deltaPx := sub clientX (ResizeState.originX resizeState) in
  let deltaMinutes :=
    snapToStep (mul (div deltaPx (ResizeState.pixelsPerHour resizeState)) (Int 60)) in
  List.map (fun shift =>
    if negb (String.eqb (id shift) (ResizeState.shiftId resizeState)) then shift
    else
      match ResizeState.edge resizeState with
      | edge_left =>
          let nextStart :=
            clamp (add (ResizeState.originStart resizeState) deltaMinutes)
                  (Int 0)
                  (sub (ResizeState.originEnd resizeState) MIN_SHIFT_MINUTES) in
          with_times shift nextStart (ResizeState.originEnd resizeState)
      | edge_right =>
          let nextEnd :=
            clamp (add (ResizeState.originEnd resizeState) deltaMinutes)
                  (add (ResizeState.originStart resizeState) MIN_SHIFT_MINUTES)
                  MINUTES_IN_DAY in
          with_times shift (ResizeState.originStart resizeState) nextEnd
      end) prev.

(* ================================================================== *)
(** ** Drag and drop

    [shiftId] is what [event.dataTransfer.getData('text/plain')] returns;
    an empty payload leaves the handler at once. *)

Definition handleDropOnTimeline (shiftId : string)
    (clientX rect_left rect_width : number)
    (employeeId' dateKey' : string) (prev : list Shift) : list Shift :=
  if String.eqb shiftId "" then prev
  else
    let x := clamp (sub clientX rect_left) (Int 0) (sub rect_width (Int 1)) in
    let hourIndex :=
      clamp (Math_floor (div x HOUR_WIDTH)) (Int 0) (sub HOURS_length (Int 1)) in
    let cellStart := mul hourIndex (Int 60) in
    List.map (fun shift =>
      if negb (String.eqb (id shift) shiftId) then shift
      else
        let duration := sub (end_ shift) (start shift) in
        let nextStart := clamp cellStart (Int 0) (sub MINUTES_IN_DAY duration) in
        with_times (with_cell shift employeeId' dateKey')
                   nextStart (add nextStart duration)) prev.

Definition handleDropOnDateCell (shiftId : string)
    (employeeId' dateKey' : string) (prev : list Shift) : list Shift :=
  if String.eqb shiftId "" then prev
  else
    List.map (fun shift =>
      if String.eqb (id shift) shiftId then with_cell shift employeeId' dateKey'
      else shift) prev.

(* ================================================================== *)
(** ** The modal save handler *)

Inductive DraftMode : Type := create | edit.

Module ModalDraft.
Record t : Type := {
  mode : DraftMode;
  shiftId : option string;
  employeeId : string;
  dateKey : string;
  title : string;
  startTime : string;
  endTime : string
}.
End ModalDraft.

(** The entries of [translations[languageId]] the handler reads. *)
Record Translations : Type := {
  invalidDate : string;
  invalidTime : string;
  endAfterStart : string;
  minShiftDuration : string;
  defaultShiftTitle : string
}.

(** The part of the component state the handler reads and sets. *)
Record ModalState : Type := {
  shifts : list Shift;
  modalDraft : option ModalDraft.t;
  error : option string
}.

Definition setError (message : string) (st : ModalState) : ModalState :=
  {| shifts := shifts st; modalDraft := modalDraft st; error := Some message |}.

Definition closeModal (st : ModalState) : ModalState :=
  {| shifts := shifts st; modalDraft := None; error := None |}.

Definition setShifts (f : list Shift -> list Shift) (st : ModalState) : ModalState :=
  {| shifts := f (shifts st); modalDraft := modalDraft st; error := error st |}.

(** [a || b] on strings: the empty string is falsy. *)
Definition or_else (a b : string) : string :=
  if String.eqb a "" then b else a.

(** [handleSaveShift]; [uuid] is what [crypto.randomUUID()] returns when
    the create branch calls it. *)
Definition handleSaveShift (t : Translations) (uuid : string) (st : ModalState) : ModalState :=
  match modalDraft st with
  | None => st
  | Some draft =>
      match parseDateKey (ModalDraft.dateKey draft) with
      | None => setError (invalidDate t) st
      | Some _ =>
          match parseTime (ModalDraft.startTime draft), parseTime (ModalDraft.endTime draft) with
          | Some start', Some end' =>
              let snappedStart := snapToStep start' in
              let snappedEnd := snapToStep end' in
              if le snappedEnd snappedStart then setError (endAfterStart t) st
              else if lt (sub snappedEnd snappedStart) MIN_SHIFT_MINUTES then
                setError (minShiftDuration t ++ " — " ++ String_of_Z 30 ++ " min") st
              else
                let title' := or_else (trim (ModalDraft.title draft)) (defaultShiftTitle t) in
                let edited (shift : Shift) : Shift :=
                  {| id := id shift;
                     employeeId := ModalDraft.employeeId draft;
                     dateKey := ModalDraft.dateKey draft;
                     title := title';
                     start := snappedStart;
                     end_ := snappedEnd |} in
                let target :=
                  match ModalDraft.mode draft, ModalDraft.shiftId draft with
                  | edit, Some sid => if String.eqb sid "" then None else Some sid
                  | _, _ => None
                  end in
                match target with
                | Some sid =>
                    closeModal (setShifts (List.map (fun shift =>
                      if String.eqb (id shift) sid then edited shift else shift)) st)
                | None =>
                    closeModal (setShifts (fun prev =>
                      prev ++ [ {| id := uuid;
                                   employeeId := ModalDraft.employeeId draft;
                                   dateKey := ModalDraft.dateKey draft;
                                   title := title';
                                   start := snappedStart;
                                   end_ := snappedEnd |} ])%list st)
                end
          | _, _ => setError (invalidTime t) st
          end
      end
  end.

(* ================================================================== *)
(** ** The persistence effects

    The component as a transition system.  An event is what the browser
    or React delivers: the commit of the first render, the settling of the
    promise [loadShiftsFromIndexedDb()] returned, a [setShifts] of any
    handler, the unmount.  After a state update the save effect runs again
    when one of its dependencies, [isStorageReady] or [shifts], changed.
    The trace records the calls into [indexedDb.ts], the settling of the
    load and each [setIsStorageReady(true)] that changes the flag, the
    latest first. *)

Inductive LoadStatus : Type := load_idle | load_pending | load_settled.

Inductive Obs : Type :=
| obs_load_called
| obs_load_settled
| obs_ready_set
| obs_save_called (saved : list Shift).

Record Component : Type := {
  c_shifts : list Shift;
  isStorageReady : bool;
  isCancelled : bool;
  mounted : bool;
  load : LoadStatus;
  trace : list Obs
}.

Inductive Event : Type :=
| ev_mount
| ev_load_resolved (storedShifts : option (list Shift))
| ev_load_rejected
| ev_set_shifts (update : list Shift -> list Shift)
| ev_unmount.

(** [useState] initial values, before the first commit. *)
Definition initial (initialShifts : list Shift) : Component :=
  {| c_shifts := initialShifts; isStorageReady := false; isCancelled := false;
     mounted := false; load := load_idle; trace := [] |}.

Definition observe (o : Obs) (c : Component) : Component :=
  {| c_shifts := c_shifts c; isStorageReady := isStorageReady c;
     isCancelled := isCancelled c; mounted := mounted c; load := load c;
     trace := o :: trace c |}.

(** The body of the save effect. *)
Definition saveEffect (c : Component) : Component :=
  if negb (isStorageReady c) then c
  else observe (obs_save_called (c_shifts c)) c.

(** [setIsStorageReady(true)], and whether it changed the state. *)
Definition setIsStorageReady_true (c : Component) : Component * bool :=
  if isStorageReady c then (c, false)
  else
    (observe obs_ready_set
       {| c_shifts := c_shifts c; isStorageReady := true;
          isCancelled := isCancelled c; mounted := mounted c; load := load c;
          trace := trace c |}, true).

Definition set_c_shifts (l : list Shift) (c : Component) : Component :=
  {| c_shifts := l; isStorageReady := isStorageReady c;
     isCancelled := isCancelled c; mounted := mounted c; load := load c;
     trace := trace c |}.

Definition settle (c : Component) : Component :=
  observe obs_load_settled
    {| c_shifts := c_shifts c; isStorageReady := isStorageReady c;
       isCancelled := isCancelled c; mounted := mounted c; load := load_settled;
       trace := trace c |}.

(** One event; [None] when the event cannot occur in this state. *)
Definition step (c : Component) (e : Event) : option Component :=
  match e with
  | ev_mount =>
      if mounted c then None
      else
        match load c with
        | load_idle =>
            (* load effect, then save effect *)
            Some (saveEffect (observe obs_load_called
              {| c_shifts := c_shifts c; isStorageReady := isStorageReady c;
                 isCancelled := false; mounted := true; load := load_pending;
                 trace := trace c |}))
        | _ => None
        end
  | ev_load_resolved storedShifts =>
      match load c with
      | load_pending =>
          let c1 := settle c in
          if isCancelled c1 then Some c1
          else
            let '(c2, newShifts) :=
              match storedShifts with
              | Some l => (set_c_shifts l c1, true)
              | None => (c1, false)
              end in
            let '(c3, newFlag) := setIsStorageReady_true c2 in
            Some (if newShifts || newFlag then saveEffect c3 else c3)
      | _ => None
      end
  | ev_load_rejected =>
      match load c with
      | load_pending =>
          let c1 := settle c in
          if negb (isCancelled c1) then
            let '(c2, newFlag) := setIsStorageReady_true c1 in
            Some (if newFlag then saveEffect c2 else c2)
          else Some c1
      | _ => None
      end
  | ev_set_shifts update =>
      if mounted c then Some (saveEffect (set_c_shifts (update (c_shifts c)) c))
      else None
  | ev_unmount =>
      if mounted c then
        Some {| c_shifts := c_shifts c; isStorageReady := isStorageReady c;
                isCancelled := true; mounted := false; load := load c;
                trace := trace c |}
      else None
  end.

Fixpoint run (events : list Event) (c : Component) : option Component :=
  match events with
  | [] => Some c
  | e :: rest =>
      match step c e with
      | Some c' => run rest c'
      | None => None
      end
  end.

(* ================================================================== *)
(** ** Further number and array operations *)

(** [x % y]: the remainder has the sign of the dividend. *)
Definition rem (x y : number) : number :=
  match x, y with
  | NaN, _ | _, NaN => NaN
  | Inf _, _ => NaN
  | Fin _, Inf _ => x
  | Fin p, Fin q => if Qzero q then NaN else Fin (p - q * inject_Z (Qtrunc (p / q)))
  end.

(** [String(x)] for NaN, the infinities and the integral numbers below
    1e21 in magnitude; these are the numbers whose decimal form does not
    depend on the binary representation.  Of another finite number only
    the integer part is printed; the statements apply [String] to
    integral numbers. *)
Definition String_of_number (x : number) : string :=
  match x with
  | NaN => "NaN"
  | Inf false => "Infinity"
  | Inf true => "-Infinity"
  | Fin q => String_of_Z (Qfloor q)
  end.

(** [ToLength(len)] *)
Definition ToLength (len : number) : Z :=
  match len with
  | NaN => 0
  | Inf true => 0
  | Inf false => 2 ^ 53 - 1
  | Fin q => Z.min (Z.max (Qtrunc q) 0) (2 ^ 53 - 1)
  end.

(** [Array.from({length: n}, (_, i) => f(i))] for a literal [n]. *)
Definition Array_from {A : Type} (n : nat) (f : number -> A) : list A :=
  List.map (fun i => f (Int (Z.of_nat i))) (seq 0 n).

(** [Array.from({length: len}, (_, i) => f(i))] for a computed length:
    [None] is the RangeError of an array longer than 2^32 - 1. *)
Definition Array_from_length {A : Type} (len : number) (f : number -> A) : option (list A) :=
  let n := ToLength len in
  if 2 ^ 32 - 1 <? n then None else Some (Array_from (Z.to_nat n) f).

(* ================================================================== *)
(** ** Further time and date utilities *)

(** [formatTime(minutes)] on numbers, as the source computes it; the
    digits are those of [String_of_number]. *)
Definition formatTime_number (minutes : number) : string :=
  let normalized := clamp minutes (Int 0) MINUTES_IN_DAY in
  let h := Math_floor (div normalized (Int 60)) in
  let m := rem normalized (Int 60) in
  padStart (String_of_number h) 2 "0" ++ ":" ++ padStart (String_of_number m) 2 "0".

(** [date.getDay()]: 0 is Sunday; day 0 (1970-01-01) was a Thursday. *)
Definition getDay (date : Date) : number :=
  match date with
  | InvalidDate => NaN
  | LocalDay n => Int ((n + 4) mod 7)
  end.

(** [date.setDate(dayOfMonth)], as the date it leaves in [date]. *)
Definition setDate (date : Date) (dayOfMonth : number) : Date :=
  match date, dayOfMonth with
  | LocalDay n, Fin q =>
      let '(y, m, _) := civil_from_days n in
      let n' := days_from_civil y m 1 + Qtrunc q - 1 in
      if Z.abs n' <=? 100000000 then LocalDay n' else InvalidDate
  | _, _ => InvalidDate
  end.

Definition dateToKey (date : Date) : string :=
  let y := getFullYear date in
  let m := padStart (String_of_number (add (getMonth date) (Int 1))) 2 "0" in
  let d := padStart (String_of_number (getDate date)) 2 "0" in
  String_of_number y ++ "-" ++ m ++ "-" ++ d.

Definition addDays (date : Date) (amount : number) : Date :=
  let copy := new_Date (getFullYear date) (getMonth date) (getDate date) in
  setDate copy (add (getDate copy) amount).

Definition getWeekDates (date : Date) : list Date :=
  let day := rem (add (getDay date) (Int 6)) (Int 7) in
  let monday := addDays date (neg day) in
  Array_from 7 (fun i => addDays monday i).

(** [None] only if [Array.from] throws. *)
Definition getMonthDates (date : Date) : option (list Date) :=
  let y := getFullYear date in
  let m := getMonth date in
  let daysInMonth := getDate (new_Date y (add m (Int 1)) (Int 0)) in
  Array_from_length daysInMonth (fun i => new_Date y m (add i (Int 1))).

(* ================================================================== *)
(** ** Opening the modal and deleting *)

(** The entries of [translations.en] that the save handler reads. *)
Definition translations_en : Translations :=
  {| invalidDate := "Enter a valid date";
     invalidTime := "Enter a valid time in HH:MM format";
     endAfterStart := "Shift end must be after start";
     minShiftDuration := "Minimum shift duration";
     defaultShiftTitle := "Shift" |}.

Definition MAX_MODAL_MINUTES : number := sub MINUTES_IN_DAY SNAP_MINUTES.
Definition DEFAULT_SHIFT_START : number := Int (9 * 60).

(** [openCreateShiftModal]; [newShiftTitle] is the entry of the translation
    table the draft's title is taken from. *)
Definition openCreateShiftModal (newShiftTitle employeeId' dateKey' : string)
    (startMinutes : number) (st : ModalState) : ModalState :=
  let snappedStart := snapToStep startMinutes in
  let defaultEnd :=
    clamp (add snappedStart (Int (4 * 60)))
          (add snappedStart MIN_SHIFT_MINUTES) MAX_MODAL_MINUTES in
  {| shifts := shifts st;
     modalDraft :=
       Some {| ModalDraft.mode := create;
               ModalDraft.shiftId := None;
               ModalDraft.employeeId := employeeId';
               ModalDraft.dateKey := dateKey';
               ModalDraft.title := newShiftTitle;
               ModalDraft.startTime := formatTime_number snappedStart;
               ModalDraft.endTime := formatTime_number defaultEnd |};
     error := None |}.

Definition openEditShiftModal (shift : Shift) (st : ModalState) : ModalState :=
  {| shifts := shifts st;
     modalDraft :=
       Some {| ModalDraft.mode := edit;
               ModalDraft.shiftId := Some (id shift);
               ModalDraft.employeeId := employeeId shift;
               ModalDraft.dateKey := dateKey shift;
               ModalDraft.title := title shift;
               ModalDraft.startTime := formatTime_number (start shift);
               ModalDraft.endTime := formatTime_number (end_ shift) |};
     error := None |}.

Definition handleDeleteShift (st : ModalState) : ModalState :=
  match modalDraft st with
  | None => st
  | Some draft =>
      match ModalDraft.mode draft, ModalDraft.shiftId draft with
      | edit, Some sid =>
          if String.eqb sid "" then st
          else closeModal (setShifts (filter (fun shift => negb (String.eqb (id shift) sid))) st)
      | _, _ => st
      end
  end.

(* ================================================================== *)
(** ** Column sizes, rendered indexes, scroll target and lanes *)

Module ViewMode.
Inductive t : Type := day | week | month.
End ViewMode.

Definition DATE_CELL_WIDTH : number := Int 160.
Definition DATE_CELL_PADDING : number := Int 6.
Definition EMPLOYEE_COLUMN_WIDTH_DESKTOP : number := Int 180.
Definition EMPLOYEE_COLUMN_WIDTH_MOBILE : number := Int 130.
Definition MOBILE_BREAKPOINT : number := Int 900.
Definition ROW_HEIGHT : number := Int 76.

Definition employeeColumnWidth (viewportWidth : number) : number :=
  if gt viewportWidth (Int 0) && le viewportWidth MOBILE_BREAKPOINT
  then EMPLOYEE_COLUMN_WIDTH_MOBILE
  else EMPLOYEE_COLUMN_WIDTH_DESKTOP.

Definition weekAdaptiveColumnWidth (viewMode : ViewMode.t) (isMobile : bool)
    (viewportWidth : number) : number :=
  match viewMode with
  | ViewMode.week =>
      if negb isMobile && gt viewportWidth (Int 0)
      then Math_max (div (sub viewportWidth (employeeColumnWidth viewportWidth)) (Int 7)) (Int 1)
      else DATE_CELL_WIDTH
  | _ => DATE_CELL_WIDTH
  end.

Definition columnWidth (viewMode : ViewMode.t) (isMobile : bool)
    (viewportWidth : number) : number :=
  match viewMode with
  | ViewMode.day => HOUR_WIDTH
  | _ => weekAdaptiveColumnWidth viewMode isMobile viewportWidth
  end.

Definition dateTimelineHourWidth (viewMode : ViewMode.t) (isMobile : bool)
    (viewportWidth : number) : number :=
  Math_max (div (sub (columnWidth viewMode isMobile viewportWidth)
                     (mul DATE_CELL_PADDING (Int 2))) (Int 24)) (Int 1).

(** The scale a resize handle passes to [startResize]: [HOUR_WIDTH] in
    the day grid, [dateTimelineHourWidth] in the date grid. *)
Definition handlePixelsPerHour (viewMode : ViewMode.t) (isMobile : bool)
    (viewportWidth : number) : number :=
  match viewMode with
  | ViewMode.day => HOUR_WIDTH
  | _ => dateTimelineHourWidth viewMode isMobile viewportWidth
  end.

Definition HEADER_HEIGHT : number := Int 54.
Definition ROW_OVERSCAN : number := Int 4.
Definition COLUMN_OVERSCAN : number := Int 2.

(** [employees.length] *)
Definition employees_length : number := Int 15.

(** [visibleDates]: [None] only if [getMonthDates] throws. *)
Definition visibleDates (viewMode : ViewMode.t) (selectedDate : Date) : option (list Date) :=
  match viewMode with
  | ViewMode.day => Some [selectedDate]
  | ViewMode.week => Some (getWeekDates selectedDate)
  | ViewMode.month => getMonthDates selectedDate
  end.

Definition columnCount (viewMode : ViewMode.t) (visibleDates' : list Date) : number :=
  match viewMode with
  | ViewMode.day => HOURS_length
  | _ => Int (Z.of_nat (List.length visibleDates'))
  end.

(** The measured viewport of the grid. *)
Module VirtualViewport.
Record t : Type := { width : number; height : number; scrollTop : number; scrollLeft : number }.
End VirtualViewport.

Definition visibleRowRange (virtualViewport : VirtualViewport.t) : VirtualRange.t :=
  let bodyStartPx :=
    Math_max (sub (VirtualViewport.scrollTop virtualViewport) HEADER_HEIGHT) (Int 0) in
  let bodyEndPx :=
    add bodyStartPx
        (Math_max (sub (VirtualViewport.height virtualViewport) HEADER_HEIGHT) (Int 0)) in
  getVirtualRange employees_length ROW_HEIGHT bodyStartPx bodyEndPx ROW_OVERSCAN.

Definition visibleColumnRange (viewMode : ViewMode.t) (isMobile : bool)
    (visibleDates' : list Date) (virtualViewport : VirtualViewport.t) : VirtualRange.t :=
  let width := VirtualViewport.width virtualViewport in
  let timelineStartPx :=
    Math_max (sub (VirtualViewport.scrollLeft virtualViewport) (employeeColumnWidth width))
             (Int 0) in
  let timelineEndPx :=
    add timelineStartPx (Math_max (sub width (employeeColumnWidth width)) (Int 0)) in
  getVirtualRange (columnCount viewMode visibleDates')
                  (columnWidth viewMode isMobile width)
                  timelineStartPx timelineEndPx COLUMN_OVERSCAN.

(** [visibleRowIndexes] and [visibleColumnIndexes], from their range. *)
Definition visibleIndexes (range : VirtualRange.t) : option (list number) :=
  if lt (VirtualRange.end_ range) (VirtualRange.start range) then Some []
  else
    let size := add (sub (VirtualRange.end_ range) (VirtualRange.start range)) (Int 1) in
    Array_from_length size (fun i => add (VirtualRange.start range) i).

(** [array.findIndex(p)], [-1] when no element satisfies [p]. *)
Fixpoint findIndex_from {A : Type} (p : A -> bool) (l : list A) (i : Z) : Z :=
  match l with
  | [] => -1
  | x :: l' => if p x then i else findIndex_from p l' (i + 1)
  end.

Definition findIndex {A : Type} (p : A -> bool) (l : list A) : Z :=
  findIndex_from p l 0.

(** The scroll effect after a date selection: [Some left] when it calls
    [viewport.scrollTo({left})].  [targetDateKey] is the value of
    [datepickerTargetDateKeyRef], [clientWidth] and [scrollLeft] are read
    from the viewport element, which is present. *)
Definition scrollToTarget (isMobile : bool) (viewMode : ViewMode.t)
    (targetDateKey : option string) (visibleDates : list Date)
    (clientWidth scrollLeft employeeColumnWidth' columnWidth' totalGridWidth : number)
    : option number :=
  if isMobile then None
  else
    match viewMode with
    | ViewMode.day => None
    | _ =>
        match targetDateKey with
        | None => None
        | Some key =>
            if String.eqb key "" then None
            else
              let targetIndex :=
                findIndex (fun date => String.eqb (dateToKey date) key) visibleDates in
              if targetIndex <? 0 then None
              else
                let timelineViewportWidth :=
                  Math_max (sub clientWidth employeeColumnWidth') columnWidth' in
                let targetColumnLeft := mul (Int targetIndex) columnWidth' in
                let targetColumnRight := add targetColumnLeft columnWidth' in
                let currentTimelineLeft := scrollLeft in
                let currentTimelineRight := add currentTimelineLeft timelineViewportWidth in
                if le currentTimelineLeft targetColumnLeft
                   && le targetColumnRight currentTimelineRight
                then None
                else
                  let maxScrollLeft := Math_max (sub totalGridWidth clientWidth) (Int 0) in
                  Some (clamp (sub targetColumnLeft
                                   (Math_max (div (sub timelineViewportWidth columnWidth') (Int 2))
                                             (Int 0)))
                              (Int 0) maxScrollLeft)
        end
    end.



(* ================================================================== *)
(** ** indexedDb.ts

    A stored value is a JavaScript value as the structured clone keeps it.
    The database, once open, serves its requests; [idb_undefined] is an
    environment without IndexedDB. *)

#[warnings="-register-all"]
Inductive JsValue : Type :=
| js_undefined
| js_null
| js_boolean (b : bool)
| js_number (n : number)
| js_string (s : string)
| js_array (items : list JsValue)
| js_object (props : list (string * JsValue)).

Definition typeof (v : JsValue) : string :=
  match v with
  | js_undefined => "undefined"
  | js_boolean _ => "boolean"
  | js_number _ => "number"
  | js_string _ => "string"
  | js_null | js_array _ | js_object _ => "object"
  end.

(** [!value] is [negb (truthy value)]. *)
Definition truthy (v : JsValue) : bool :=
  match v with
  | js_undefined | js_null => false
  | js_boolean b => b
  | js_number NaN => false
  | js_number (Inf _) => true
  | js_number (Fin q) => negb (Qzero q)
  | js_string s => negb (String.eqb s "")
  | js_array _ | js_object _ => true
  end.

Fixpoint lookup_prop (key : string) (props : list (string * JsValue)) : JsValue :=
  match props with
  | [] => js_undefined
  | (k, v) :: rest => if String.eqb k key then v else lookup_prop key rest
  end.

(** [value[key]] for the keys of a shift, which an array does not have. *)
Definition get_prop (v : JsValue) (key : string) : JsValue :=
  match v with
  | js_object props => lookup_prop key props
  | _ => js_undefined
  end.

Definition isValidShift (value : JsValue) : bool :=
  if negb (truthy value) || negb (String.eqb (typeof value) "object") then false
  else
    String.eqb (typeof (get_prop value "id")) "string"
    && String.eqb (typeof (get_prop value "employeeId")) "string"
    && String.eqb (typeof (get_prop value "dateKey")) "string"
    && String.eqb (typeof (get_prop value "title")) "string"
    && String.eqb (typeof (get_prop value "start")) "number"
    && String.eqb (typeof (get_prop value "end")) "number".

Definition ObjectStore : Type := list (string * JsValue).

Inductive IndexedDB : Type :=
| idb_undefined
| idb_database (app_store : ObjectStore).

Inductive Promise (A : Type) : Type :=
| resolved (value : A)
| rejected (reason : string).
Arguments resolved {A} value.
Arguments rejected {A} reason.

Definition SHIFTS_KEY : string := "shifts".

(** [store.get(key)] and [store.put(value, key)] *)
Definition store_get (key : string) (store : ObjectStore) : JsValue :=
  lookup_prop key store.

Fixpoint store_put (value : JsValue) (key : string) (store : ObjectStore) : ObjectStore :=
  match store with
  | [] => [(key, value)]
  | (k, v) :: rest =>
      if String.eqb k key then (k, value) :: rest else (k, v) :: store_put value key rest
  end.

(** A shift as the object the structured clone stores. *)
Definition js_of_shift (shift : Shift) : JsValue :=
  js_object [ ("id", js_string (id shift));
              ("employeeId", js_string (employeeId shift));
              ("dateKey", js_string (dateKey shift));
              ("title", js_string (title shift));
              ("start", js_number (start shift));
              ("end", js_number (end_ shift)) ].

(** The six fields of a stored object, read as [StoredShift] types them. *)
Definition shift_of_js (v : JsValue) : option Shift :=
  match get_prop v "id", get_prop v "employeeId", get_prop v "dateKey",
        get_prop v "title", get_prop v "start", get_prop v "end" with
  | js_string i, js_string e, js_string d, js_string t, js_number s, js_number e' =>
      Some {| id := i; employeeId := e; dateKey := d; title := t; start := s; end_ := e' |}
  | _, _, _, _, _, _ => None
  end.

(** [loadShiftsFromIndexedDb()]: [resolved None] is [null]. *)
Definition loadShiftsFromIndexedDb (idb : IndexedDB) : Promise (option (list JsValue)) :=
  match idb with
  | idb_undefined => rejected "IndexedDB is not available in this environment"
  | idb_database store =>
      match store_get SHIFTS_KEY store with
      | js_array data => resolved (Some (filter isValidShift data))
      | _ => resolved None
      end
  end.

(** [saveShiftsToIndexedDb(shifts)]: the promise and the database after. *)
Definition saveShiftsToIndexedDb (shifts : list Shift) (idb : IndexedDB)
    : Promise unit * IndexedDB :=
  match idb with
  | idb_undefined => (rejected "IndexedDB is not available in this environment", idb)
  | idb_database store =>
      (resolved tt, idb_database (store_put (js_array (List.map js_of_shift shifts)) SHIFTS_KEY store))
  end.

(* ================================================================== *)
(** ** The view mode in localStorage *)

(** What [window.localStorage.getItem(key)] does: it throws, or returns
    [null] ([item None]) or a string. *)
Inductive GetItem : Type :=
| getItem_throws
| item (value : option string).

Definition isViewMode (value : string) : bool :=
  String.eqb value "day" || String.eqb value "week" || String.eqb value "month".

Definition viewMode_of_string (value : string) : ViewMode.t :=
  if String.eqb value "day" then ViewMode.day
  else if String.eqb value "week" then ViewMode.week
  else ViewMode.month.

Definition string_of_viewMode (mode : ViewMode.t) : string :=
  match mode with
  | ViewMode.day => "day"
  | ViewMode.week => "week"
  | ViewMode.month => "month"
  end.

(** [getInitialViewMode()], in a browser ([window] is defined). *)
Definition getInitialViewMode (stored : GetItem) : ViewMode.t :=
  match stored with
  | item (Some value) =>
      if negb (String.eqb value "") && isViewMode value then viewMode_of_string value
      else ViewMode.day
  | _ => ViewMode.day
  end.

(** [getInitialSelectedDate()], in a browser; [now] is [new Date()]. *)
Definition getInitialSelectedDate (stored : GetItem) (now : Date) : Date :=
  match stored with
  | item (Some value) =>
      if String.eqb value "" then now
      else match parseDateKey value with
           | Some parsed => parsed
           | None => now
           end
  | _ => now
  end.

(* ================================================================== *)
(** ** Vocabulary of the statements *)

(** [clamp] as the spec writes it, on rationals. *)
Definition Qclamp (v lo hi : Q) : Q := Qmin (Qmax v lo) hi.

(** Equality of two numbers as terms, decided. *)
Definition number_eqb (x y : number) : bool :=
  match x, y with
  | NaN, NaN => true
  | Inf a, Inf b => Bool.eqb a b
  | Fin p, Fin q => (Qnum p =? Qnum q) && Pos.eqb (Qden p) (Qden q)
  | _, _ => false
  end.

(** The three invariants of a shift: integral bounds [a], [b] with
    [0 <= a < b <= 1440], [b - a >= 30], both multiples of 15. *)
Definition valid_shift (s : Shift) : Prop :=
  exists a b : Z,
    start s = Int a /\ end_ s = Int b /\
    0 <= a /\ a < b /\ b <= 1440 /\ 30 <= b - a /\ (15 | a) /\ (15 | b).


Definition has_key (key : string) (s : Shift) : bool :=
  String.eqb (dateCellKey (employeeId s) (dateKey s)) key.


Definition by_start (a b : Shift) : number := sub (start a) (start b).



(** Whether formatting and parsing the minute [m] gives [m] back. *)
Definition roundtrips (m : nat) : bool :=
  match parseTime (formatTime (Z.of_nat m)) with
  | Some x => number_eqb x (Int (Z.of_nat m))
  | None => false
  end.

Definition is_ready_set (o : Obs) : bool :=
  match o with
  | obs_ready_set => true
  | _ => false
  end.

(** How often the flag was set in a trace. *)
Definition ready_count (tr : list Obs) : nat := List.length (filter is_ready_set tr).

(** In a trace (latest first): every save comes after the settling of the
    load, and every setting of the flag comes right after it. *)
Definition saves_after_settle (tr : list Obs) : Prop :=
  forall later saved earlier,
    tr = (later ++ obs_save_called saved :: earlier)%list ->
    In obs_load_settled earlier.

Definition ready_follows_settle (tr : list Obs) : Prop :=
  forall later earlier,
    tr = (later ++ obs_ready_set :: earlier)%list ->
    exists before, earlier = obs_load_settled :: before.

(** What holds of every reachable state of the component. *)
Definition Inv (c : Component) : Prop :=
  saves_after_settle (trace c) /\
  ready_follows_settle (trace c) /\
  (isStorageReady c = true ->
     ready_count (trace c) = 1%nat /\ In obs_load_settled (trace c) /\
     load c = load_settled) /\
  (isStorageReady c = false -> ready_count (trace c) = 0%nat).



(** *** Checks over a range of months

    The calendar facts below are established by evaluation over the 3600
    months from January 1900 to December 2199. *)

Definition FIRST_DAY : Z := -25567.
Definition LAST_DAY : Z := 84005.

Fixpoint all_from (fuel : nat) (z : Z) (p : Z -> bool) : bool :=
  match fuel with
  | O => true
  | S f => p z && all_from f (z + 1) p
  end.

Definition in_month (y m n : Z) : bool :=
  let '(y', m', _) := civil_from_days n in (y' =? y) && (m' =? m).

(** The first day of month number [k]: year [k / 12], month [k mod 12 + 1]. *)
Definition month_first (k : Z) : Z := days_from_civil (k / 12) (k mod 12 + 1) 1.

(** Month number [k] has 28 to 31 days, numbered from 1, between days of
    other months. *)
Definition month_ok (k : Z) : bool :=
  let y := k / 12 in
  let m := k mod 12 + 1 in
  let first := month_first k in
  let len := month_first (k + 1) - first in
  (28 <=? len) && (len <=? 31)
  && all_from (Z.to_nat len) 0
       (fun i => let '(y', m', d') := civil_from_days (first + i) in
                 (y' =? y) && (m' =? m) && (d' =? i + 1))
  && negb (in_month y m (first - 1))
  && all_from 4 0 (fun j => negb (in_month y m (first + len + j))).

Fixpoint no_dash (s : string) : bool :=
  match s with
  | EmptyString => true
  | String c s' => negb (Ascii.eqb c "-") && no_dash s'
  end.

(** The decimal form of [v], padded to [width], reads back as [v] and
    has no dash in it. *)
Definition field_ok (width : nat) (v : Z) : bool :=
  let text := padStart (String_of_Z v) width "0" in
  number_eqb (Number text) (Int v) && no_dash text.

(* ================================================================== *)
(** * Properties *)

(** ** Arithmetic of integral and finite numbers *)

Section NumberFacts.

Lemma add_Int (a b : Z) : add (Int a) (Int b) = Int (a + b).
Proof.
  unfold add, Int, Qplus, inject_Z; simpl.
  now rewrite !Z.mul_1_r.
Qed.

Lemma sub_Int (a b : Z) : sub (Int a) (Int b) = Int (a - b).
Proof.
  unfold sub, neg, add, Int, Qplus, Qopp, inject_Z; simpl.
  now rewrite !Z.mul_1_r.
Qed.

Lemma mul_Int (a b : Z) : mul (Int a) (Int b) = Int (a * b).
Proof. reflexivity. Qed.

Lemma lt_Int (a b : Z) : lt (Int a) (Int b) = (a <? b).
Proof.
  unfold lt, Int, Qlt_bool, Qle_bool, inject_Z; simpl.
  rewrite !Z.mul_1_r. now rewrite Z.ltb_antisym.
Qed.

Lemma le_Int (a b : Z) : le (Int a) (Int b) = (a <=? b).
Proof.
  unfold le, Int, Qle_bool, inject_Z; simpl.
  now rewrite !Z.mul_1_r.
Qed.

Lemma lt_Fin (p q : Q) : lt (Fin p) (Fin q) = true <-> (p < q)%Q.
Proof.
  unfold lt, Qlt_bool. rewrite negb_true_iff.
  split; intro H.
  - apply Qnot_le_lt. intro L. apply Qle_bool_iff in L. congruence.
  - destruct (Qle_bool q p) eqn:E; [|reflexivity].
    apply Qle_bool_iff in E. exfalso. apply (Qlt_not_le _ _ H E).
Qed.

Lemma le_Fin (p q : Q) : le (Fin p) (Fin q) = true <-> (p <= q)%Q.
Proof. apply Qle_bool_iff. Qed.

Lemma Qlt_bool_compare (p q : Q) : Qlt_bool p q = true <-> (p ?= q)%Q = Lt.
Proof.
  rewrite <- Qlt_alt. apply (lt_Fin p q).
Qed.

Lemma Math_max_Fin (p q : Q) : Math_max (Fin p) (Fin q) = Fin (Qmax p q).
Proof.
  unfold Math_max, lt, Qmax, GenericMinMax.gmax.
  destruct (Qlt_bool p q) eqn:E.
  - apply Qlt_bool_compare in E. now rewrite E.
  - destruct (p ?= q)%Q eqn:C; try reflexivity.
    apply Qlt_bool_compare in C. congruence.
Qed.

Lemma Math_min_Fin (p q : Q) : Math_min (Fin p) (Fin q) = Fin (Qmin p q).
Proof.
  unfold Math_min, lt, Qmin, GenericMinMax.gmin.
  destruct (Qlt_bool q p) eqn:E.
  - apply (lt_Fin q p) in E. apply -> Qgt_alt in E. now rewrite E.
  - destruct (p ?= q)%Q eqn:C; try reflexivity.
    apply <- Qgt_alt in C. apply (lt_Fin q p) in C.
    unfold lt in C. congruence.
Qed.

Lemma clamp_Fin (v lo hi : Q) :
  clamp (Fin v) (Fin lo) (Fin hi) = Fin (Qclamp v lo hi).
Proof.
  unfold clamp, Qclamp. now rewrite Math_max_Fin, Math_min_Fin.
Qed.

Lemma Math_max_Int (a b : Z) : Math_max (Int a) (Int b) = Int (Z.max a b).
Proof.
  unfold Math_max. change (Fin (inject_Z a)) with (Int a).
  change (Fin (inject_Z b)) with (Int b). rewrite lt_Int.
  destruct (Z.ltb_spec a b); [rewrite Z.max_r by lia | rewrite Z.max_l by lia];
    reflexivity.
Qed.

Lemma Math_min_Int (a b : Z) : Math_min (Int a) (Int b) = Int (Z.min a b).
Proof.
  unfold Math_min. change (Fin (inject_Z a)) with (Int a).
  change (Fin (inject_Z b)) with (Int b). rewrite lt_Int.
  destruct (Z.ltb_spec b a); [rewrite Z.min_r by lia | rewrite Z.min_l by lia];
    reflexivity.
Qed.

Lemma clamp_Int (v lo hi : Z) :
  clamp (Int v) (Int lo) (Int hi) = Int (Zclamp v lo hi).
Proof.
  unfold clamp, Zclamp. now rewrite Math_max_Int, Math_min_Int.
Qed.

(** [snapToStep] of a finite value is 15 times the rounded quotient. *)
Lemma snapToStep_Fin (q : Q) :
  snapToStep (Fin q) = Int (Qfloor (q / 15 + (1 # 2)) * 15).
Proof. reflexivity. Qed.

Lemma snapToStep_Int (v : Z) :
  snapToStep (Int v) = Int ((2 * v + 15) / 30 * 15).
Proof.
  change (Int v) with (Fin (inject_Z v)) at 1.
  rewrite snapToStep_Fin. unfold Int. do 3 f_equal.
  unfold Qdiv, Qmult, Qplus, Qinv, inject_Z, Qfloor.
  cbn -[Z.mul Z.add Z.div]. f_equal. lia.
Qed.


End NumberFacts.

(* ================================================================== *)
(** ** snapToStep *)

Section Snap.



Example snapToStep_midpoint : snapToStep (Fin (15 # 2)) = Int 15.
Proof. reflexivity. Qed.

End Snap.

(* ================================================================== *)
(** ** getVirtualRange *)

Section Virtualizer.

Lemma Qzero_false (q : Q) : ~ (q == 0)%Q -> Qzero q = false.
Proof.
  intro H. unfold Qzero. apply Z.eqb_neq. intro E. apply H.
  unfold Qeq. simpl. lia.
Qed.

Lemma div_Fin (p q : Q) : ~ (q == 0)%Q -> div (Fin p) (Fin q) = Fin (p / q).
Proof. intro H. unfold div. now rewrite (Qzero_false q H). Qed.



(** With no items the range is empty whatever the other arguments are,
    finite or not. *)
Lemma getVirtualRange_empty (itemCount : Q) (itemSize vs ve overscan : number) :
  (itemCount <= 0)%Q ->
  getVirtualRange (Fin itemCount) itemSize vs ve overscan =
    {| VirtualRange.start := Int 0; VirtualRange.end_ := Int (-1) |}.
Proof.
  intro H. unfold getVirtualRange.
  change (le (Fin itemCount) (Int 0)) with (Qle_bool itemCount 0).
  apply Qle_bool_iff in H. now rewrite H.
Qed.

End Virtualizer.

(* ================================================================== *)
(** ** formatTime and parseTime *)

Section TimeStrings.

Lemma number_eqb_eq (x y : number) : number_eqb x y = true -> x = y.
Proof.
  destruct x as [|a|[pn pd]], y as [|b|[qn qd]]; simpl; try discriminate; auto.
  - intro H. apply Bool.eqb_prop in H. now subst.
  - intro H. apply andb_true_iff in H. destruct H as [Hn Hd].
    apply Z.eqb_eq in Hn. apply Pos.eqb_eq in Hd. now subst.
Qed.

(** The round trip, checked minute by minute over a whole day. *)
Lemma roundtrips_all_day : forallb roundtrips (seq 0 1440) = true.
Proof. vm_compute. reflexivity. Qed.

(** C6, amended.  For every integral [m] in [0, 1439], parsing the
    formatted time gives back [clamp(m, 0, 1440)], which is [m]. *)
Theorem parseTime_formatTime (m : Z) :
  0 <= m <= 1439 ->
  parseTime (formatTime m) = Some (clamp (Int m) (Int 0) MINUTES_IN_DAY).
Proof.
  intro H.
  unfold MINUTES_IN_DAY. rewrite clamp_Int. unfold Zclamp.
  rewrite Z.max_l, Z.min_l by lia.
  pose proof roundtrips_all_day as A.
  rewrite forallb_forall in A.
  specialize (A (Z.to_nat m)).
  unfold roundtrips in A. rewrite Z2Nat.id in A by lia.
  destruct (parseTime (formatTime m)) as [x|].
  - f_equal. apply number_eqb_eq. apply A. apply in_seq. lia.
  - discriminate A. apply in_seq. lia.
Qed.

Lemma parseTime_formatTime_witness :
  parseTime (formatTime 570) = Some (clamp (Int 570) (Int 0) MINUTES_IN_DAY).
Proof. apply (parseTime_formatTime 570). lia. Defined.

(** C6 as stated fails at the endpoint: 1440 is printed as ["24:00"],
    whose hour [parseTime] rejects. *)
Lemma parseTime_formatTime_1440 :
  0 <= 1440 <= 1440 /\
  formatTime 1440 = "24:00" /\
  parseTime (formatTime 1440) = None /\
  parseTime (formatTime 1440) <> Some (clamp (Int 1440) (Int 0) MINUTES_IN_DAY).
Proof.
  repeat split; try reflexivity; try lia.
  discriminate.
Qed.

Lemma split_nonempty (sep : ascii) (s : string) : split sep s <> [].
Proof.
  induction s as [|c s IH]; simpl; [discriminate|].
  destruct (Ascii.eqb c sep); [discriminate|].
  destruct (split sep s); [contradiction|discriminate].
Qed.

(** Splitting in front of the first separator. *)
Lemma split_prefix (sep : ascii) (p tail : string) :
  (forall c, In c (list_ascii_of_string p) -> Ascii.eqb c sep = false) ->
  split sep (p ++ String sep tail) = p :: split sep tail.
Proof.
  induction p as [|c p IH]; intro H; simpl.
  - now rewrite Ascii.eqb_refl.
  - rewrite (H c (or_introl eq_refl)).
    rewrite IH; [reflexivity|].
    intros c' Hc'. apply H. now right.
Qed.

(** C10.  When the first two components of [value] are numerals for an
    hour [h] in [0, 23] and a minute [m] in [0, 59], [parseTime] returns
    [h * 60 + m] whatever components follow; ["09:30:00"], and ["09:30:"]
    followed by anything, give 570. *)
Theorem parseTime_ignores_further_components :
  (forall (value hs ms : string) (rest : list string) (h m : Q),
     split ":" value = hs :: ms :: rest ->
     Number hs = Fin h -> Number ms = Fin m ->
     (0 <= h <= 23)%Q -> (0 <= m <= 59)%Q ->
     parseTime value = Some (Fin (h * 60 + m))) /\
  parseTime "09:30:00" = Some (Int 570) /\
  (forall tail : string, parseTime ("09:30:" ++ tail) = Some (Int 570)).
Proof.
  assert (G : forall (value hs ms : string) (rest : list string) (h m : Q),
     split ":" value = hs :: ms :: rest ->
     Number hs = Fin h -> Number ms = Fin m ->
     (0 <= h <= 23)%Q -> (0 <= m <= 59)%Q ->
     parseTime value = Some (Fin (h * 60 + m))).
  { intros value hs ms rest h m Hs Hh Hm [h0 h23] [m0 m59].
    unfold parseTime. rewrite Hs. cbn [map nth_error]. rewrite Hh, Hm.
    cbn [Number_isNaN ToNumber orb].
    assert (L1 : lt (Fin h) (Int 0) = false).
    { destruct (lt (Fin h) (Int 0)) eqn:E; [|reflexivity].
      apply lt_Fin in E. change (inject_Z 0) with 0%Q in E. lra. }
    assert (L2 : gt (Fin h) (Int 23) = false).
    { unfold gt. destruct (lt (Int 23) (Fin h)) eqn:E; [|reflexivity].
      apply lt_Fin in E. change (inject_Z 23) with 23%Q in E. lra. }
    assert (L3 : lt (Fin m) (Int 0) = false).
    { destruct (lt (Fin m) (Int 0)) eqn:E; [|reflexivity].
      apply lt_Fin in E. change (inject_Z 0) with 0%Q in E. lra. }
    assert (L4 : gt (Fin m) (Int 59) = false).
    { unfold gt. destruct (lt (Int 59) (Fin m)) eqn:E; [|reflexivity].
      apply lt_Fin in E. change (inject_Z 59) with 59%Q in E. lra. }
    rewrite L1, L2, L3, L4. reflexivity. }
  split; [exact G|]. split; [reflexivity|].
  intro tail.
  destruct (split ":" tail) as [|t ts] eqn:Et.
  { now apply split_nonempty in Et. }
  apply (G _ "09" "30" (t :: ts) 9%Q 30%Q).
  - change ("09:30:" ++ tail) with ("09" ++ String ":" ("30" ++ String ":" tail)).
    rewrite split_prefix.
    + rewrite split_prefix; [now rewrite Et|].
      intros c [<-|[<-|[]]]; reflexivity.
    + intros c [<-|[<-|[]]]; reflexivity.
  - reflexivity.
  - reflexivity.
  - lra.
  - lra.
Qed.

Lemma parseTime_ignores_further_components_witness :
  parseTime "23:59:59:xyz" = Some (Fin (23 * 60 + 59)).
Proof.
  apply (proj1 parseTime_ignores_further_components
           "23:59:59:xyz" "23" "59" ["59"; "xyz"] 23%Q 59%Q);
    try reflexivity; lra.
Defined.

End TimeStrings.

(* ================================================================== *)
(** ** Resize *)

Section Resize.




(** The end-to-end example of the spec: the right edge of 09:00-13:00
    dragged by the pixels of 30 minutes ends at 13:30. *)
Example resize_right_by_30_minutes :
  let shift := {| id := "s"; employeeId := "e1"; dateKey := "2024-01-15";
                  title := "t"; start := Int 540; end_ := Int 780 |} in
  onPointerMove (startResize (Int 100) shift edge_right HOUR_WIDTH) (Int 136) [shift] =
  [with_times shift (Int 540) (Int 810)].
Proof. reflexivity. Qed.


End Resize.

(* ================================================================== *)
(** ** Drop on a date cell *)

Section DropOnDateCell.

Lemma nth_error_map_some {A B : Type} (f : A -> B) (l : list A) (i : nat) (a : A) :
  nth_error l i = Some a -> nth_error (map f l) i = Some (f a).
Proof. intro H. rewrite nth_error_map, H. reflexivity. Qed.

(** C9.  A drop onto a date cell of employee [E] and date [D] keeps the
    collection's length and order; at every position the id, title, start
    and end are what they were, and a shift whose id is not the dragged one
    is unchanged; when the drop carries a shift id, the shifts with that id
    get employee [E] and date [D]. *)
Theorem drop_on_date_cell_frame
    (shiftId E D : string) (prev : list Shift) (i : nat) (s : Shift) :
  nth_error prev i = Some s ->
  List.length (handleDropOnDateCell shiftId E D prev) = List.length prev /\
  exists s' : Shift,
    nth_error (handleDropOnDateCell shiftId E D prev) i = Some s' /\
    id s' = id s /\ title s' = title s /\
    start s' = start s /\ end_ s' = end_ s /\
    (id s <> shiftId -> s' = s) /\
    (shiftId <> "" -> id s = shiftId -> employeeId s' = E /\ dateKey s' = D).
Proof.
  intro Hi. unfold handleDropOnDateCell.
  destruct (String.eqb_spec shiftId "") as [Hempty|Hne].
  - split; [reflexivity|]. exists s. repeat split; auto; contradiction.
  - split; [apply length_map|].
    eexists. split; [apply nth_error_map_some; exact Hi|].
    destruct (String.eqb_spec (id s) shiftId); simpl; repeat split; auto;
      try contradiction; intros; congruence.
Qed.

Lemma drop_on_date_cell_frame_witness :
  let a := {| id := "a"; employeeId := "e1"; dateKey := "2024-01-15";
              title := "t"; start := Int 540; end_ := Int 780 |} in
  let b := {| id := "b"; employeeId := "e2"; dateKey := "2024-01-15";
              title := "u"; start := Int 600; end_ := Int 660 |} in
  handleDropOnDateCell "a" "e3" "2024-01-20" [a; b] = [with_cell a "e3" "2024-01-20"; b] /\
  List.length (handleDropOnDateCell "a" "e3" "2024-01-20" [a; b]) = 2%nat /\
  exists s' : Shift,
    nth_error (handleDropOnDateCell "a" "e3" "2024-01-20" [a; b]) 0 = Some s' /\
    id s' = id a /\ title s' = title a /\
    start s' = start a /\ end_ s' = end_ a /\
    (id a <> "a" -> s' = a) /\
    ("a" <> "" -> id a = "a" -> employeeId s' = "e3" /\ dateKey s' = "2024-01-20").
Proof.
  intros a b. split; [reflexivity|].
  apply (drop_on_date_cell_frame "a" "e3" "2024-01-20" [a; b] 0 a).
  reflexivity.
Defined.

(** A drop without a payload changes nothing. *)
Lemma drop_on_date_cell_no_payload (E D : string) (prev : list Shift) :
  handleDropOnDateCell "" E D prev = prev.
Proof. reflexivity. Qed.

End DropOnDateCell.

(* ================================================================== *)
(** ** The shift index *)

Section ShiftIndex.

(** *** The map *)

Lemma Map_get_set_same (k : string) (v : list Shift) (m : ShiftMap) :
  Map_get k (Map_set k v m) = Some v.
Proof.
  induction m as [|[k' w] m IH]; simpl.
  - now rewrite String.eqb_refl.
  - destruct (String.eqb k' k) eqn:E; simpl; rewrite E; auto.
Qed.

Lemma Map_get_set_other (k k' : string) (v : list Shift) (m : ShiftMap) :
  k' <> k -> Map_get k (Map_set k' v m) = Map_get k m.
Proof.
  intro H. induction m as [|[k0 w] m IH]; simpl.
  - destruct (String.eqb_spec k' k); [contradiction|reflexivity].
  - destruct (String.eqb_spec k0 k'); simpl.
    + subst k0. destruct (String.eqb_spec k' k); [contradiction|reflexivity].
    + destruct (String.eqb k0 k); auto.
Qed.

Lemma Map_get_map_values (f : list Shift -> list Shift) (k : string) (m : ShiftMap) :
  Map_get k (map (fun '(k', l) => (k', f l)) m) = option_map f (Map_get k m).
Proof.
  induction m as [|[k' w] m IH]; simpl; [reflexivity|].
  destruct (String.eqb k' k); auto.
Qed.

(** After the grouping loop, a key holds what it held before followed by
    the shifts of that key, in collection order. *)
Lemma index_fold (key : string) (l : list Shift) (m : ShiftMap) :
  Map_get key (fold_left index_add l m) =
  match Map_get key m with
  | Some v => Some (v ++ filter (has_key key) l)%list
  | None =>
      match filter (has_key key) l with
      | [] => None
      | f => Some f
      end
  end.
Proof.
  revert m. induction l as [|s l IH]; intro m; simpl.
  - destruct (Map_get key m); [now rewrite app_nil_r|reflexivity].
  - rewrite IH. unfold index_add, has_key.
    destruct (String.eqb_spec (dateCellKey (employeeId s) (dateKey s)) key) as [E|E].
    + rewrite E.
      destruct (Map_get key m) as [v|]; rewrite Map_get_set_same.
      * now rewrite <- app_assoc.
      * reflexivity.
    + destruct (Map_get (dateCellKey (employeeId s) (dateKey s)) m);
        now rewrite Map_get_set_other.
Qed.

(** The lookup is the stable sort of the shifts stored under the key. *)
Lemma getShiftsForCell_by_key (shifts : list Shift) (e d : string) :
  getShiftsForCell shifts e d =
  Array_sort by_start (filter (has_key (dateCellKey e d)) shifts).
Proof.
  unfold getShiftsForCell, shiftsByEmployeeDate.
  rewrite (Map_get_map_values (Array_sort (fun a b => sub (start a) (start b)))).
  rewrite index_fold. simpl.
  destruct (filter (has_key (dateCellKey e d)) shifts); reflexivity.
Qed.

(** *** Keys *)




(** *** Order of numbers other than NaN *)







End ShiftIndex.

Section StableSort.

Lemma sort_insert_perm {A : Type} (cmp : A -> A -> number) (x : A) (l : list A) :
  Permutation (sort_insert cmp x l) (x :: l).
Proof.
  induction l as [|y l IH]; cbn [sort_insert]; [reflexivity|].
  destruct (gt (cmp x y) (Int 0)); [|reflexivity].
  rewrite IH. apply perm_swap.
Qed.

Lemma Array_sort_perm {A : Type} (cmp : A -> A -> number) (l : list A) :
  Permutation (Array_sort cmp l) l.
Proof.
  induction l as [|x l IH]; cbn [Array_sort fold_right]; [reflexivity|].
  rewrite sort_insert_perm. now apply perm_skip.
Qed.





End StableSort.

Section ShiftIndexLookup.




End ShiftIndexLookup.

(* ================================================================== *)
(** ** Saves wait for the load *)

Section Persistence.

Lemma saves_cons_other (o : Obs) (tr : list Obs) :
  (forall saved, o <> obs_save_called saved) ->
  saves_after_settle tr -> saves_after_settle (o :: tr).
Proof.
  intros Ho H later saved earlier E.
  destruct later as [|x later]; simpl in E; injection E as E1 E2.
  - now apply Ho in E1.
  - eapply H. exact E2.
Qed.

Lemma saves_cons_save (saved : list Shift) (tr : list Obs) :
  In obs_load_settled tr ->
  saves_after_settle tr -> saves_after_settle (obs_save_called saved :: tr).
Proof.
  intros Hs H later saved' earlier E.
  destruct later as [|x later]; simpl in E; injection E as E1 E2.
  - now subst.
  - eapply H. exact E2.
Qed.

Lemma ready_cons_other (o : Obs) (tr : list Obs) :
  o <> obs_ready_set ->
  ready_follows_settle tr -> ready_follows_settle (o :: tr).
Proof.
  intros Ho H later earlier E.
  destruct later as [|x later]; simpl in E; injection E as E1 E2.
  - contradiction.
  - eapply H. exact E2.
Qed.

Lemma ready_cons_ready (tr : list Obs) :
  ready_follows_settle tr ->
  ready_follows_settle (obs_ready_set :: obs_load_settled :: tr).
Proof.
  intros H later earlier E.
  destruct later as [|x later]; simpl in E.
  - injection E as E1. subst. now eexists.
  - injection E as E1 E2. revert E2.
    apply ready_cons_other; [discriminate|exact H].
Qed.

Lemma Inv_initial (initialShifts : list Shift) : Inv (initial initialShifts).
Proof.
  unfold Inv, initial; cbn. repeat split; try discriminate.
  - intros later saved earlier E. now destruct later.
  - intros later earlier E. now destruct later.
Qed.

Ltac trace_facts :=
  repeat first
    [ apply saves_cons_save; [cbn; tauto|]
    | apply saves_cons_other; [discriminate|]
    | apply ready_cons_ready
    | apply ready_cons_other; [discriminate|]
    | assumption ].

(** Every event keeps the invariant. *)
Lemma step_Inv (c c' : Component) (e : Event) :
  Inv c -> step c e = Some c' -> Inv c'.
Proof.
  destruct c as [sh rdy canc mnt ld tr].
  unfold Inv; cbn. intros (P1 & P2 & P3 & P4) H.
  assert (Hrdy : ld <> load_settled -> rdy = false).
  { intro Hl. destruct rdy; [|reflexivity].
    destruct (P3 eq_refl) as (_ & _ & E). contradiction. }
  destruct e as [|stored| |update|]; cbn in H.
  - destruct mnt; [discriminate|]. destruct ld; try discriminate.
    rewrite Hrdy in * by discriminate.
    injection H as <-. cbn.
    repeat split; trace_facts; auto; try discriminate.
  - destruct ld; try discriminate.
    rewrite Hrdy in * by discriminate. specialize (P4 eq_refl).
    destruct canc; cbn in H.
    + injection H as <-. cbn.
      repeat split; trace_facts; auto; try discriminate.
    + destruct stored; cbn in H; injection H as <-; cbn;
        unfold ready_count in *; cbn; rewrite ?P4;
        repeat split; trace_facts; auto; try discriminate.
  - destruct ld; try discriminate.
    rewrite Hrdy in * by discriminate. specialize (P4 eq_refl).
    destruct canc; cbn in H; injection H as <-; cbn;
      unfold ready_count in *; cbn; rewrite ?P4;
      repeat split; trace_facts; auto; try discriminate.
  - destruct mnt; [|discriminate]. injection H as <-.
    destruct rdy; cbn.
    + destruct (P3 eq_refl) as (C & S & L).
      repeat split; trace_facts; auto; try discriminate.
    + repeat split; trace_facts; auto; try discriminate.
  - destruct mnt; [|discriminate]. injection H as <-. cbn.
    repeat split; trace_facts; auto; now apply P3.
Qed.

Lemma run_Inv (events : list Event) (c c' : Component) :
  Inv c -> run events c = Some c' -> Inv c'.
Proof.
  revert c. induction events as [|e events IH]; intros c Hc H; cbn in H.
  - now injection H as <-.
  - destruct (step c e) as [c1|] eqn:E; [|discriminate].
    eapply IH; [|exact H]. eapply step_Inv; eassumption.
Qed.

(** C2.  In every run of the component from its initial state: the flag
    starts false; every save call in the trace comes after the settling
    of the initial load; the flag is set right after that settling and at
    most once, and it is true exactly when it was set once; and while the
    load is pending and not cancelled, its settling, resolved or rejected,
    sets the flag, for the first and only time. *)
Theorem no_save_before_load_settles
    (initialShifts : list Shift) (events : list Event) (c : Component) :
  run events (initial initialShifts) = Some c ->
  isStorageReady (initial initialShifts) = false /\
  (forall later saved earlier,
     trace c = (later ++ obs_save_called saved :: earlier)%list ->
     In obs_load_settled earlier) /\
  (forall later earlier,
     trace c = (later ++ obs_ready_set :: earlier)%list ->
     exists before, earlier = obs_load_settled :: before) /\
  (ready_count (trace c) <= 1)%nat /\
  (isStorageReady c = true <-> ready_count (trace c) = 1%nat) /\
  (load c = load_pending -> isCancelled c = false ->
   (forall storedShifts, exists c',
      step c (ev_load_resolved storedShifts) = Some c' /\
      isStorageReady c' = true /\ ready_count (trace c') = 1%nat) /\
   (exists c',
      step c ev_load_rejected = Some c' /\
      isStorageReady c' = true /\ ready_count (trace c') = 1%nat)).
Proof.
  intro H. split; [reflexivity|].
  pose proof (run_Inv _ _ _ (Inv_initial initialShifts) H) as (P1 & P2 & P3 & P4).
  split; [exact P1|]. split; [exact P2|].
  assert (Hrdy : load c <> load_settled -> isStorageReady c = false).
  { intro Hl. destruct (isStorageReady c); [|reflexivity].
    destruct (P3 eq_refl) as (_ & _ & E). contradiction. }
  split; [|split].
  - destruct (isStorageReady c); [rewrite (proj1 (P3 eq_refl))|rewrite (P4 eq_refl)]; lia.
  - split; [intro E; apply P3; exact E|].
    intro E. destruct (isStorageReady c); [reflexivity|].
    rewrite (P4 eq_refl) in E. discriminate.
  - intros Hl Hc.
    assert (F : isStorageReady c = false) by (apply Hrdy; rewrite Hl; discriminate).
    specialize (P4 F). unfold ready_count in *.
    destruct c as [sh rdy canc mnt ld tr]; cbn in *. subst.
    split.
    + intros [l|]; eexists; cbn; (split; [reflexivity|]); cbn; rewrite P4; auto.
    + eexists; cbn; (split; [reflexivity|]); cbn; rewrite P4; auto.
Qed.

Lemma no_save_before_load_settles_witness :
  let s := {| id := "s"; employeeId := "e1"; dateKey := "2024-01-15";
              title := "t"; start := Int 540; end_ := Int 780 |} in
  let events := [ev_mount; ev_set_shifts (handleDropOnDateCell "s" "e2" "2024-01-16");
                 ev_load_rejected; ev_set_shifts (handleDropOnDateCell "s" "e3" "2024-01-17")] in
  exists c, run events (initial [s]) = Some c /\
    trace c = [obs_save_called [with_cell s "e3" "2024-01-17"];
               obs_save_called [with_cell s "e2" "2024-01-16"];
               obs_ready_set; obs_load_settled; obs_load_called] /\
    (forall later saved earlier,
       trace c = (later ++ obs_save_called saved :: earlier)%list ->
       In obs_load_settled earlier).
Proof.
  intros s events. eexists. split; [reflexivity|]. split; [reflexivity|].
  apply (no_save_before_load_settles [s] events). reflexivity.
Defined.

End Persistence.

(* ================================================================== *)
(** ** The shift invariants along the mutation paths *)

Section Invariants.

Lemma not_lt_Fin (p q : Q) : lt (Fin p) (Fin q) = false -> (q <= p)%Q.
Proof.
  intro H. apply Qnot_lt_le. intro L. apply (lt_Fin p q) in L. congruence.
Qed.

(** What [parseTime] can return: NaN, or a finite value within the day. *)
Lemma parseTime_Some (value : string) (x : number) :
  parseTime value = Some x ->
  x = NaN \/ exists q : Q, x = Fin q /\ (0 <= q <= 1439)%Q.
Proof.
  unfold parseTime.
  set (h := ToNumber (nth_error (map Number (split ":" value)) 0)).
  set (m := ToNumber (nth_error (map Number (split ":" value)) 1)).
  destruct (_ || _); [discriminate|].
  destruct (lt h (Int 0)) eqn:H0; [discriminate|].
  destruct (gt h (Int 23)) eqn:H23; [discriminate|].
  destruct (lt m (Int 0)) eqn:M0; [discriminate|].
  destruct (gt m (Int 59)) eqn:M59; [discriminate|].
  cbn [orb]. intro E. injection E as <-.
  destruct h as [|a|h]; [now left|destruct a; discriminate|].
  destruct m as [|b|m]; [now left|destruct b; discriminate|].
  right. exists (h * 60 + m)%Q. split; [reflexivity|].
  apply not_lt_Fin in H0, H23, M0, M59.
  change (inject_Z 0) with 0%Q in *. change (inject_Z 23) with 23%Q in *.
  change (inject_Z 59) with 59%Q in *. lra.
Qed.

(** Snapping a time of day gives a multiple of 15 between 0 and 1440. *)
Lemma snapToStep_time_of_day (q : Q) :
  (0 <= q <= 1439)%Q ->
  exists k : Z, snapToStep (Fin q) = Int (15 * k) /\ 0 <= k <= 96.
Proof.
  intros [H0 H1].
  exists (Qfloor (q / 15 + (1 # 2))). split.
  - rewrite snapToStep_Fin. f_equal. lia.
  - assert (E : (q / 15 * 15 == q)%Q) by field.
    split.
    + change 0 with (Qfloor 0). apply Qfloor_resp_le. lra.
    + pose proof (Qfloor_le (q / 15 + (1 # 2))) as F.
      assert (L : (inject_Z (Qfloor (q / 15 + (1 # 2))) < inject_Z 97)%Q)
        by (change (inject_Z 97) with 97%Q; lra).
      rewrite <- Zlt_Qlt in L. lia.
Qed.


Lemma divide_Zclamp (n v lo hi : Z) :
  (n | v) -> (n | lo) -> (n | hi) -> (n | Zclamp v lo hi).
Proof.
  intros Hv Hlo Hhi. unfold Zclamp.
  apply Z.min_case; [apply Z.max_case|]; assumption.
Qed.

Lemma valid_with_times (s : Shift) (a b : Z) :
  0 <= a -> a < b -> b <= 1440 -> 30 <= b - a -> (15 | a) -> (15 | b) ->
  valid_shift (with_times s (Int a) (Int b)).
Proof. intros. exists a, b. repeat split; assumption. Qed.

Lemma valid_with_cell (s : Shift) (e d : string) :
  valid_shift s -> valid_shift (with_cell s e d).
Proof. intros (a & b & H). exists a, b. exact H. Qed.

Lemma Forall_map_valid (f : Shift -> Shift) (l : list Shift) :
  (forall s, valid_shift s -> valid_shift (f s)) ->
  Forall valid_shift l -> Forall valid_shift (map f l).
Proof.
  intros Hf H. induction H; simpl; constructor; auto.
Qed.

(** *** Resize *)

(** A resize gesture that starts on a shift satisfying the invariants, at
    a non-zero scale, keeps them at every pointer move. *)
Lemma onPointerMove_preserves_valid
    (captured : Shift) (edge : Edge) (ox pph cx : Q) (prev : list Shift) :
  valid_shift captured -> ~ (pph == 0)%Q ->
  Forall valid_shift prev ->
  Forall valid_shift
    (onPointerMove (startResize (Fin ox) captured edge (Fin pph)) (Fin cx) prev).
Proof.
  intros (a & b & Ha & Hb & A0 & Aab & Ab & Alen & Da & Db) Hnz Hprev.
  unfold onPointerMove, startResize;
    cbn [ResizeState.shiftId ResizeState.edge ResizeState.originX
         ResizeState.originStart ResizeState.originEnd ResizeState.pixelsPerHour].
  rewrite Ha, Hb.
  change (sub (Fin cx) (Fin ox)) with (Fin (cx - ox)).
  rewrite (div_Fin _ pph Hnz).
  change (mul (Fin ((cx - ox) / pph)) (Int 60)) with (Fin ((cx - ox) / pph * 60)).
  rewrite snapToStep_Fin.
  set (d := Qfloor ((cx - ox) / pph * 60 / 15 + (1 # 2)) * 15).
  assert (Dd : (15 | d)) by apply Z.divide_factor_r.
  apply Forall_map_valid; [|exact Hprev].
  intros s Hs.
  destruct (String.eqb (id s) (id captured)); cbn [negb]; [|exact Hs].
  unfold MIN_SHIFT_MINUTES, MINUTES_IN_DAY.
  destruct edge; rewrite !add_Int, ?sub_Int, clamp_Int.
  - apply valid_with_times; try assumption; try (unfold Zclamp; lia).
    apply divide_Zclamp.
    + now apply Z.divide_add_r.
    + apply Z.divide_0_r.
    + apply Z.divide_sub_r; [assumption|]. now exists 2.
  - apply valid_with_times; try assumption; try (unfold Zclamp; lia).
    apply divide_Zclamp.
    + now apply Z.divide_add_r.
    + apply Z.divide_add_r; [assumption|]. now exists 2.
    + now exists 96.
Qed.

(** *** Drag and drop *)

Lemma handleDropOnDateCell_preserves_valid
    (shiftId E D : string) (prev : list Shift) :
  Forall valid_shift prev ->
  Forall valid_shift (handleDropOnDateCell shiftId E D prev).
Proof.
  intro H. unfold handleDropOnDateCell.
  destruct (String.eqb shiftId ""); [exact H|].
  apply Forall_map_valid; [|exact H].
  intros s Hs. destruct (String.eqb (id s) shiftId); [|exact Hs].
  now apply valid_with_cell.
Qed.

Lemma handleDropOnTimeline_preserves_valid
    (shiftId : string) (clientX rect_left rect_width : Q) (E D : string)
    (prev : list Shift) :
  Forall valid_shift prev ->
  Forall valid_shift
    (handleDropOnTimeline shiftId (Fin clientX) (Fin rect_left) (Fin rect_width) E D prev).
Proof.
  intro H. unfold handleDropOnTimeline.
  destruct (String.eqb shiftId ""); [exact H|].
  assert (Hcell : exists hourIndex : Z, 0 <= hourIndex <= 23 /\
            mul (clamp (Math_floor (div (clamp (sub (Fin clientX) (Fin rect_left)) (Int 0)
                                               (sub (Fin rect_width) (Int 1)))
                                        HOUR_WIDTH))
                       (Int 0) (sub HOURS_length (Int 1)))
                (Int 60) = Int (hourIndex * 60)).
  { change (sub (Fin clientX) (Fin rect_left)) with (Fin (clientX - rect_left)).
    change (sub (Fin rect_width) (Int 1)) with (Fin (rect_width - 1)).
    change (Int 0) with (Fin 0) at 1. rewrite clamp_Fin.
    unfold HOUR_WIDTH, HOURS_length. change (Int 72) with (Fin 72).
    rewrite div_Fin by (intro Q0; discriminate Q0).
    cbn [Math_floor]. rewrite sub_Int, clamp_Int, mul_Int.
    eexists. split; [|reflexivity]. unfold Zclamp. lia. }
  destruct Hcell as (hourIndex & Hh & Hcell). rewrite Hcell.
  apply Forall_map_valid; [|exact H].
  intros s (a & b & Ha & Hb & A0 & Aab & Ab & Alen & Da & Db).
  destruct (String.eqb (id s) shiftId); cbn [negb];
    [|exists a, b; repeat split; assumption].
  rewrite Ha, Hb. unfold MINUTES_IN_DAY.
  rewrite !sub_Int, clamp_Int, add_Int.
  set (nextStart := Zclamp (hourIndex * 60) 0 (24 * 60 - (b - a))).
  assert (Dn : (15 | nextStart)).
  { apply divide_Zclamp.
    - exists (hourIndex * 4). lia.
    - apply Z.divide_0_r.
    - apply Z.divide_sub_r; [now exists 96|]. now apply Z.divide_sub_r. }
  exists nextStart, (nextStart + (b - a)).
  repeat split; try (unfold nextStart, Zclamp; lia); try assumption.
  apply Z.divide_add_r; [assumption|]. now apply Z.divide_sub_r.
Qed.


End Invariants.

(* ================================================================== *)
(** ** The modal save handler *)

Section SaveShift.

(** The entries of the translation table in force and the id that
    [crypto.randomUUID()] hands out. *)
Variable t : Translations.
Variable uuid : string.

(** What the handler does once both times have parsed to finite values:
    the snapped bounds are multiples of 15 within the day. *)
Lemma snapped_bounds (value : string) (q : Q) :
  parseTime value = Some (Fin q) ->
  exists k : Z, snapToStep (Fin q) = Int (15 * k) /\ 0 <= k <= 96.
Proof.
  intro H. apply parseTime_Some in H. destruct H as [H|(q' & E & B)].
  - discriminate H.
  - injection E as ->. now apply snapToStep_time_of_day.
Qed.

(** The save handler keeps the invariants whenever neither time parses
    to NaN. *)
Lemma handleSaveShift_preserves_valid (st : ModalState) :
  Forall valid_shift (shifts st) ->
  (forall draft, modalDraft st = Some draft ->
     parseTime (ModalDraft.startTime draft) <> Some NaN /\
     parseTime (ModalDraft.endTime draft) <> Some NaN) ->
  Forall valid_shift (shifts (handleSaveShift t uuid st)).
Proof.
  intros Hv Hn. unfold handleSaveShift.
  destruct (modalDraft st) as [draft|]; [|exact Hv].
  destruct (Hn draft eq_refl) as [Hs He].
  destruct (parseDateKey (ModalDraft.dateKey draft)); [|exact Hv].
  destruct (parseTime (ModalDraft.startTime draft)) as [x|] eqn:Ex; [|exact Hv].
  destruct (parseTime (ModalDraft.endTime draft)) as [y|] eqn:Ey; [|exact Hv].
  destruct (parseTime_Some _ _ Ex) as [->|(a & -> & _)]; [contradiction|].
  destruct (parseTime_Some _ _ Ey) as [->|(b & -> & _)]; [contradiction|].
  destruct (snapped_bounds _ _ Ex) as (ka & -> & Ka).
  destruct (snapped_bounds _ _ Ey) as (kb & -> & Kb).
  unfold MIN_SHIFT_MINUTES. rewrite le_Int, sub_Int, lt_Int.
  destruct (Z.leb_spec (15 * kb) (15 * ka)); [exact Hv|].
  destruct (Z.ltb_spec (15 * kb - 15 * ka) 30); [exact Hv|].
  assert (Hnew : forall i e d ti,
            valid_shift {| id := i; employeeId := e; dateKey := d; title := ti;
                           start := Int (15 * ka); end_ := Int (15 * kb) |}).
  { intros. exists (15 * ka), (15 * kb).
    repeat split; try lia; apply Z.divide_factor_l. }
  destruct (match ModalDraft.mode draft, ModalDraft.shiftId draft with
            | edit, Some sid => if String.eqb sid "" then None else Some sid
            | _, _ => None
            end) as [sid|]; cbn.
  - apply Forall_map_valid; [|exact Hv].
    intros s Hs'. destruct (String.eqb (id s) sid); [apply Hnew|exact Hs'].
  - apply Forall_app. split; [exact Hv|]. constructor; [apply Hnew|constructor].
Qed.

(** A submit that fails validation sets an error, keeps the draft open and
    leaves the collection as it is. *)
Lemma handleSaveShift_rejects (st : ModalState) (draft : ModalDraft.t) :
  modalDraft st = Some draft ->
  parseDateKey (ModalDraft.dateKey draft) = None \/
  parseTime (ModalDraft.startTime draft) = None \/
  parseTime (ModalDraft.endTime draft) = None \/
  (exists sa sb : Z,
     option_map snapToStep (parseTime (ModalDraft.startTime draft)) = Some (Int sa) /\
     option_map snapToStep (parseTime (ModalDraft.endTime draft)) = Some (Int sb) /\
     (sb <= sa \/ sb - sa < 30)) ->
  shifts (handleSaveShift t uuid st) = shifts st /\
  modalDraft (handleSaveShift t uuid st) = Some draft /\
  error (handleSaveShift t uuid st) <> None.
Proof.
  intros Hd H. unfold handleSaveShift. rewrite Hd.
  destruct (parseDateKey (ModalDraft.dateKey draft)) eqn:Ed;
    [|cbn; repeat split; [exact Hd|discriminate]].
  destruct H as [H|[H|[H|(sa & sb & Ha & Hb & Hc)]]].
  - discriminate H.
  - rewrite H. cbn. repeat split; [exact Hd|discriminate].
  - rewrite H. destruct (parseTime (ModalDraft.startTime draft));
      cbn; repeat split; try exact Hd; discriminate.
  - destruct (parseTime (ModalDraft.startTime draft)) as [x|]; [|discriminate Ha].
    destruct (parseTime (ModalDraft.endTime draft)) as [y|]; [|discriminate Hb].
    cbn in Ha, Hb. injection Ha as ->. injection Hb as ->.
    unfold MIN_SHIFT_MINUTES. rewrite le_Int, sub_Int, lt_Int.
    destruct (Z.leb_spec sb sa); [cbn; repeat split; [exact Hd|discriminate]|].
    destruct (Z.ltb_spec (sb - sa) 30); [cbn; repeat split; [exact Hd|discriminate]|].
    lia.
Qed.

(** A create draft that passes validation appends exactly one shift: the
    generated id, the draft's employee and date, the snapped times. *)
Lemma handleSaveShift_create
    (st : ModalState) (draft : ModalDraft.t) (sa sb : Z) :
  modalDraft st = Some draft ->
  ModalDraft.mode draft = create ->
  parseDateKey (ModalDraft.dateKey draft) <> None ->
  option_map snapToStep (parseTime (ModalDraft.startTime draft)) = Some (Int sa) ->
  option_map snapToStep (parseTime (ModalDraft.endTime draft)) = Some (Int sb) ->
  sa < sb -> 30 <= sb - sa ->
  handleSaveShift t uuid st =
  {| shifts :=
       (shifts st ++
        [ {| id := uuid;
             employeeId := ModalDraft.employeeId draft;
             dateKey := ModalDraft.dateKey draft;
             title := or_else (trim (ModalDraft.title draft)) (defaultShiftTitle t);
             start := Int sa;
             end_ := Int sb |} ])%list;
     modalDraft := None;
     error := None |}.
Proof.
  intros Hd Hm Hk Ha Hb Hlt Hlen. unfold handleSaveShift. rewrite Hd, Hm.
  destruct (parseDateKey (ModalDraft.dateKey draft)); [|contradiction].
  destruct (parseTime (ModalDraft.startTime draft)) as [x|]; [|discriminate Ha].
  destruct (parseTime (ModalDraft.endTime draft)) as [y|]; [|discriminate Hb].
  cbn in Ha, Hb. injection Ha as ->. injection Hb as ->.
  unfold MIN_SHIFT_MINUTES. rewrite le_Int, sub_Int, lt_Int.
  destruct (Z.leb_spec sb sa); [lia|].
  destruct (Z.ltb_spec (sb - sa) 30); [lia|].
  reflexivity.
Qed.


(** A time string without a colon has no minute component: [m] is
    [undefined], which [Number.isNaN] and the range checks let through,
    and the sum is NaN rather than [null]. *)
Lemma parseTime_without_colon :
  parseTime "" = Some NaN /\ parseTime "12" = Some NaN.
Proof. split; reflexivity. Qed.

(** C8 at a failing input.  Submitting a create draft whose end-time
    field was cleared is not rejected: a shift with end NaN is appended,
    the modal closes and no error is set. *)
Theorem handleSaveShift_cleared_end_time :
  let old := {| id := "s1"; employeeId := "e2"; dateKey := "2024-01-15";
                title := "Day"; start := Int 720; end_ := Int 1080 |} in
  let draft := {| ModalDraft.mode := create;
                  ModalDraft.shiftId := None;
                  ModalDraft.employeeId := "e1";
                  ModalDraft.dateKey := "2024-01-15";
                  ModalDraft.title := "Shift";
                  ModalDraft.startTime := "09:00";
                  ModalDraft.endTime := "" |} in
  handleSaveShift t uuid {| shifts := [old]; modalDraft := Some draft; error := None |} =
  {| shifts := [old; {| id := uuid; employeeId := "e1"; dateKey := "2024-01-15";
                        title := "Shift"; start := Int 540; end_ := NaN |}];
     modalDraft := None;
     error := None |}.
Proof. vm_compute. reflexivity. Qed.

Lemma valid_shift_start_not_NaN (s : Shift) : valid_shift s -> start s <> NaN.
Proof. intros (a & b & Ha & _). rewrite Ha. discriminate. Qed.

(** C3 at a failing input.  Saving an edit draft whose start-time field
    was cleared turns a collection that satisfies the invariants into one
    that does not: the edited shift starts at NaN. *)
Theorem handleSaveShift_breaks_invariants :
  let old := {| id := "s1"; employeeId := "e1"; dateKey := "2024-01-15";
                title := "Morning"; start := Int 540; end_ := Int 780 |} in
  let draft := {| ModalDraft.mode := edit;
                  ModalDraft.shiftId := Some "s1";
                  ModalDraft.employeeId := "e1";
                  ModalDraft.dateKey := "2024-01-15";
                  ModalDraft.title := "Morning";
                  ModalDraft.startTime := "";
                  ModalDraft.endTime := "13:00" |} in
  let st' := handleSaveShift t uuid
               {| shifts := [old]; modalDraft := Some draft; error := None |} in
  Forall valid_shift [old] /\
  shifts st' = [with_times old NaN (Int 780)] /\
  ~ Forall valid_shift (shifts st').
Proof.
  intros old draft st'.
  assert (E : shifts st' = [with_times old NaN (Int 780)])
    by (vm_compute; reflexivity).
  split; [|split].
  - constructor; [|constructor].
    exists 540, 780. repeat split; try lia.
    + exists 36. reflexivity.
    + exists 52. reflexivity.
  - exact E.
  - rewrite E. intro H. inversion H as [|s l Hs _]; subst.
    apply valid_shift_start_not_NaN in Hs. now apply Hs.
Qed.

End SaveShift.

(* ================================================================== *)
(** * Further properties *)

(** ** clamp and snapToStep *)

Section ClampAndSnap.

(** X1.  On finite numbers [clamp] never exceeds the upper bound; with
    [lo <= hi] it lies within the bounds and leaves a value within them
    alone; with [hi < lo] it is the upper bound, whatever the value. *)
Theorem clamp_bounds (v lo hi : Q) :
  exists c : Q,
    clamp (Fin v) (Fin lo) (Fin hi) = Fin c /\
    (c <= hi)%Q /\
    ((lo <= hi)%Q -> (lo <= c)%Q) /\
    ((lo <= v <= hi)%Q -> (c == v)%Q) /\
    ((hi < lo)%Q -> (c == hi)%Q).
Proof.
  exists (Qclamp v lo hi). split; [apply clamp_Fin|].
  unfold Qclamp.
  pose proof (Q.le_min_r (Qmax v lo) hi) as A.
  pose proof (Q.le_max_r v lo) as B.
  split; [exact A|]. split; [|split].
  - intro H. apply Q.min_glb; assumption.
  - intros [H1 H2]. rewrite (Q.max_l v lo H1). now apply Q.min_l.
  - intro H. apply Q.min_r. lra.
Qed.

Lemma clamp_bounds_witness :
  exists c : Q,
    clamp (Fin 1500) (Fin 570) (Fin 1440) = Fin c /\
    (c <= 1440)%Q /\ (570 <= c)%Q /\
    clamp (Fin 600) (Fin 570) (Fin 1440) = Fin 600.
Proof.
  destruct (clamp_bounds 1500 570 1440) as (c & E & A & B & _).
  exists c. split; [exact E|]. split; [exact A|]. split; [|reflexivity].
  apply B. discriminate.
Defined.

Lemma Qfloor_inject_add (k : Z) (r : Q) :
  (0 <= r)%Q -> (r < 1)%Q -> Qfloor (inject_Z k + r) = k.
Proof.
  intros H0 H1.
  pose proof (Qfloor_le (inject_Z k + r)) as A.
  pose proof (Qlt_floor (inject_Z k + r)) as B.
  set (f := Qfloor (inject_Z k + r)) in *.
  rewrite inject_Z_plus in B. change (inject_Z 1) with 1%Q in B.
  assert (L1 : (inject_Z f < inject_Z (k + 1))%Q)
    by (rewrite inject_Z_plus; change (inject_Z 1) with 1%Q; lra).
  assert (L2 : (inject_Z k < inject_Z (f + 1))%Q)
    by (rewrite inject_Z_plus; change (inject_Z 1) with 1%Q; lra).
  rewrite <- Zlt_Qlt in L1, L2. lia.
Qed.

(** X2.  Snapping is idempotent and monotone on finite values: a snapped
    value snaps to itself, and a larger value never snaps below a smaller
    one. *)
Theorem snapToStep_idempotent_monotone :
  (forall q : Q, snapToStep (snapToStep (Fin q)) = snapToStep (Fin q)) /\
  (forall p q : Q, (p <= q)%Q -> le (snapToStep (Fin p)) (snapToStep (Fin q)) = true).
Proof.
  split.
  - intro q. rewrite snapToStep_Fin.
    set (k := Qfloor (q / 15 + (1 # 2))).
    change (Int (k * 15)) with (Fin (inject_Z (k * 15))) at 1.
    rewrite snapToStep_Fin. do 2 f_equal.
    assert (E : (inject_Z (k * 15) / 15 + (1 # 2) == inject_Z k + (1 # 2))%Q).
    { rewrite inject_Z_mult. change (inject_Z 15) with 15%Q. field. }
    rewrite E. apply Qfloor_inject_add; lra.
  - intros p q H. rewrite !snapToStep_Fin, le_Int.
    apply Z.leb_le. apply Z.mul_le_mono_nonneg_r; [lia|].
    apply Qfloor_resp_le.
    assert (Ep : (p / 15 * 15 == p)%Q) by field.
    assert (Eq : (q / 15 * 15 == q)%Q) by field.
    lra.
Qed.

Lemma snapToStep_idempotent_monotone_witness :
  le (snapToStep (Fin (15 # 2))) (snapToStep (Fin (23 # 1))) = true.
Proof.
  apply (proj2 snapToStep_idempotent_monotone (15 # 2) (23 # 1)).
  discriminate.
Defined.

End ClampAndSnap.

(* ================================================================== *)
(** ** What parseTime returns *)

Section ParseTimeResult.

Lemma split_one_no_sep (sep : ascii) (s p : string) :
  split sep s = [p] ->
  forall c, In c (list_ascii_of_string s) -> Ascii.eqb c sep = false.
Proof.
  revert p. induction s as [|c s IH]; intros p H c' Hc; [contradiction|].
  simpl in H. destruct (Ascii.eqb c sep) eqn:E.
  - injection H as _ H. now apply split_nonempty in H.
  - destruct (split sep s) as [|p' ps] eqn:Es; [now apply split_nonempty in Es|].
    injection H as _ H. subst ps.
    destruct Hc as [<-|Hc]; [exact E|]. eapply IH; [reflexivity|exact Hc].
Qed.

(** X3.  A non-null result of [parseTime] is a finite number of minutes
    between 0 and 1439, or NaN; it is NaN only for a string without a
    colon. *)
Theorem parseTime_result (value : string) (x : number) :
  parseTime value = Some x ->
  (exists q : Q, x = Fin q /\ (0 <= q <= 1439)%Q) \/
  (x = NaN /\ forall c, In c (list_ascii_of_string value) -> c <> ":"%char).
Proof.
  intro H. destruct (parseTime_Some value x H) as [->|Hfin]; [|now left].
  right. split; [reflexivity|].
  unfold parseTime in H.
  destruct (split ":" value) as [|hs [|ms rest]] eqn:Es.
  - now apply split_nonempty in Es.
  - intros c Hc ->. pose proof (split_one_no_sep _ _ _ Es _ Hc) as F.
    discriminate F.
  - exfalso. cbn [map nth_error] in H.
    destruct (Number hs) as [|a|h]; destruct (Number ms) as [|b|m];
      cbn [Number_isNaN ToNumber orb] in H; try discriminate H.
    + destruct a; cbn in H; try discriminate H.
    + destruct a; cbn in H; try discriminate H.
    + destruct b; cbn [lt gt Int negb orb] in H;
        rewrite ?orb_true_r in H; discriminate H.
    + destruct (_ || _) in H; discriminate H.
Qed.

Lemma parseTime_result_witness :
  (exists q : Q, Fin 570 = Fin q /\ (0 <= q <= 1439)%Q) \/
  (Fin 570 = NaN /\ forall c, In c (list_ascii_of_string "09:30") -> c <> ":"%char).
Proof. apply (parseTime_result "09:30" (Fin 570)). reflexivity. Defined.

End ParseTimeResult.

(* ================================================================== *)
(** ** Dates *)

Section Calendar.

Lemma all_from_spec (fuel : nat) (z : Z) (p : Z -> bool) :
  all_from fuel z p = true ->
  forall k, z <= k < z + Z.of_nat fuel -> p k = true.
Proof.
  revert z. induction fuel as [|f IH]; intros z H k Hk; [lia|].
  cbn [all_from] in H. apply andb_true_iff in H. destruct H as [H0 H1].
  destruct (Z.eq_dec k z) as [->|Hne]; [exact H0|].
  apply (IH (z + 1) H1). lia.
Qed.

Lemma months_checked : all_from (Z.to_nat 3600) 22800 month_ok = true.
Proof. vm_cast_no_check (eq_refl true). Qed.

Lemma years_checked : all_from (Z.to_nat 300) 1900 (field_ok 0) = true.
Proof. vm_cast_no_check (eq_refl true). Qed.

Lemma fields_checked : all_from (Z.to_nat 31) 1 (field_ok 2) = true.
Proof. vm_cast_no_check (eq_refl true). Qed.

(** What the check of a month says. *)
Lemma month_facts (k : Z) :
  22800 <= k < 26400 ->
  let y := k / 12 in
  let m := k mod 12 + 1 in
  let len := month_first (k + 1) - month_first k in
  28 <= len <= 31 /\
  (forall i, 0 <= i < len -> civil_from_days (month_first k + i) = (y, m, i + 1)) /\
  in_month y m (month_first k - 1) = false /\
  (forall j, 0 <= j < 4 -> in_month y m (month_first k + len + j) = false).
Proof.
  intros Hk y m len.
  pose proof (all_from_spec _ _ _ months_checked k) as A.
  rewrite Z2Nat.id in A by lia. specialize (A ltac:(lia)).
  unfold month_ok in A. fold y m len in A.
  rewrite !andb_true_iff in A. destruct A as [[[[A1 A2] A3] A4] A5].
  rewrite Z.leb_le in A1, A2. rewrite negb_true_iff in A4.
  split; [lia|]. split; [|split].
  - intros i Hi.
    pose proof (all_from_spec _ _ _ A3 i) as B.
    rewrite Z2Nat.id in B by lia. specialize (B ltac:(lia)). cbv beta in B.
    destruct (civil_from_days (month_first k + i)) as [[y' m'] d'].
    rewrite !andb_true_iff, !Z.eqb_eq in B. destruct B as [[-> ->] ->].
    reflexivity.
  - exact A4.
  - intros j Hj.
    pose proof (all_from_spec _ _ _ A5 j ltac:(cbn; lia)) as B.
    cbv beta in B. now rewrite negb_true_iff in B.
Qed.

(** Every day of the range lies in one of the months. *)
Lemma month_cover (j : nat) (n : Z) :
  (j <= 3600)%nat ->
  month_first 22800 <= n < month_first (22800 + Z.of_nat j) ->
  exists k i, 22800 <= k < 22800 + Z.of_nat j /\
              0 <= i < month_first (k + 1) - month_first k /\
              n = month_first k + i.
Proof.
  induction j as [|j IH]; intros Hj Hn.
  - rewrite Z.add_0_r in Hn. lia.
  - destruct (Z_lt_le_dec n (month_first (22800 + Z.of_nat j))) as [L|L].
    + destruct IH as (k & i & Hk & Hi & E); [lia|lia|].
      exists k, i. repeat split; try lia.
    + exists (22800 + Z.of_nat j), (n - month_first (22800 + Z.of_nat j)).
      replace (22800 + Z.of_nat j + 1) with (22800 + Z.of_nat (S j)) by lia.
      repeat split; lia.
Qed.

Lemma range_ends :
  month_first 22800 = FIRST_DAY /\ month_first (22800 + Z.of_nat 3600) = LAST_DAY + 1.
Proof. split; vm_compute; reflexivity. Qed.

Lemma day_in_range (n : Z) :
  FIRST_DAY <= n <= LAST_DAY ->
  exists y m d,
    civil_from_days n = (y, m, d) /\ days_from_civil y m d = n /\
    1900 <= y <= 2199 /\ 1 <= m <= 12 /\ 1 <= d <= 31.
Proof.
  intro H. destruct range_ends as [E1 E2].
  destruct (month_cover 3600 n (Nat.le_refl _)) as (k & i & Hk & Hi & ->);
    [lia|].
  assert (Hk' : 22800 <= k < 26400) by lia.
  destruct (month_facts k Hk') as (Hlen & Hday & _).
  exists (k / 12), (k mod 12 + 1), (i + 1).
  split; [now apply Hday|]. split.
  - unfold month_first, days_from_civil. lia.
  - cbv zeta in Hlen.
    assert (1900 <= k / 12) by (apply Z.div_le_lower_bound; lia).
    assert (k / 12 < 2200) by (apply Z.div_lt_upper_bound; lia).
    assert (0 <= k mod 12 < 12) by (apply Z.mod_pos_bound; lia).
    repeat split; lia.
Qed.

End Calendar.

Section Dates.

Lemma Qtrunc_inject_Z (z : Z) : Qtrunc (inject_Z z) = z.
Proof.
  unfold Qtrunc. destruct (Qnegative (inject_Z z));
    [apply Qceiling_Z|apply Qfloor_Z].
Qed.

Lemma strict_eq_Int (a b : Z) : strict_eq (Int a) (Int b) = (a =? b).
Proof. unfold strict_eq, Int, Qeq_bool. cbn. now rewrite !Z.mul_1_r. Qed.

Lemma String_of_number_Int (z : Z) : String_of_number (Int z) = String_of_Z z.
Proof. unfold String_of_number, Int. now rewrite Qfloor_Z. Qed.

Lemma new_Date_Int (y m d : Z) :
  new_Date (Int y) (Int m) (Int d) =
  let yr := if (0 <=? y) && (y <=? 99) then 1900 + y else y in
  let n := days_from_civil (yr + m / 12) (m mod 12 + 1) 1 + d - 1 in
  if Z.abs n <=? 100000000 then LocalDay n else InvalidDate.
Proof. unfold new_Date, Int. now rewrite !Qtrunc_inject_Z. Qed.

Lemma days_from_civil_day (y m d : Z) :
  days_from_civil y m d = days_from_civil y m 1 + d - 1.
Proof. unfold days_from_civil. lia. Qed.

(** A year from 100 on, a month index of the year and a day number give
    that day counted from the first of the month. *)
Lemma new_Date_civil (y m d : Z) :
  100 <= y -> 1 <= m <= 12 ->
  Z.abs (days_from_civil y m 1 + d - 1) <= 100000000 ->
  new_Date (Int y) (Int (m - 1)) (Int d) = LocalDay (days_from_civil y m 1 + d - 1).
Proof.
  intros Hy Hm Hn. rewrite new_Date_Int. cbv zeta.
  replace ((0 <=? y) && (y <=? 99)) with false
    by (symmetry; apply andb_false_iff; right; apply Z.leb_gt; lia).
  replace ((m - 1) / 12) with 0 by (symmetry; apply Z.div_small; lia).
  replace ((m - 1) mod 12 + 1) with m by (rewrite Z.mod_small; lia).
  rewrite Z.add_0_r.
  now replace (Z.abs _ <=? 100000000) with true by (symmetry; apply Z.leb_le; exact Hn).
Qed.

(** The fields of a day of the range. *)
Lemma fields_in_range (n : Z) :
  FIRST_DAY <= n <= LAST_DAY ->
  exists y m d,
    civil_from_days n = (y, m, d) /\ days_from_civil y m 1 + d - 1 = n /\
    1900 <= y <= 2199 /\ 1 <= m <= 12 /\ 1 <= d <= 31 /\
    getFullYear (LocalDay n) = Int y /\
    getMonth (LocalDay n) = Int (m - 1) /\
    getDate (LocalDay n) = Int d.
Proof.
  intro H. destruct (day_in_range n H) as (y & m & d & E & En & Hy & Hm & Hd).
  exists y, m, d. rewrite <- days_from_civil_day.
  unfold getFullYear, getMonth, getDate. rewrite E. repeat split; auto; lia.
Qed.

Lemma range_small (n : Z) : FIRST_DAY <= n <= LAST_DAY -> Z.abs n <= 100000000.
Proof. unfold FIRST_DAY, LAST_DAY. lia. Qed.

Lemma padStart_0 (s : string) (c : ascii) : padStart s 0 c = s.
Proof. reflexivity. Qed.

Lemma field_facts (width : nat) (v : Z) :
  field_ok width v = true ->
  Number (padStart (String_of_Z v) width "0") = Int v /\
  forall c, In c (list_ascii_of_string (padStart (String_of_Z v) width "0")) ->
            Ascii.eqb c "-" = false.
Proof.
  unfold field_ok. intro H. apply andb_true_iff in H. destruct H as [H1 H2].
  split; [now apply number_eqb_eq|].
  revert H2. generalize (padStart (String_of_Z v) width "0") as text.
  induction text as [|c text IH]; intros H2 c' Hc; [contradiction|].
  cbn [no_dash] in H2. apply andb_true_iff in H2. destruct H2 as [Hc0 Ht].
  destruct Hc as [<-|Hc]; [now apply negb_true_iff in Hc0|now apply IH].
Qed.

Lemma split_no_sep (sep : ascii) (s : string) :
  (forall c, In c (list_ascii_of_string s) -> Ascii.eqb c sep = false) ->
  split sep s = [s].
Proof.
  induction s as [|c s IH]; intro H; [reflexivity|].
  cbn [split]. rewrite (H c (or_introl eq_refl)).
  rewrite IH; [reflexivity|]. intros c' Hc'. apply H. now right.
Qed.

(** The key of a day of the range splits into the numerals of its
    fields. *)
Lemma dateToKey_parts (n : Z) :
  FIRST_DAY <= n <= LAST_DAY ->
  exists y m d,
    civil_from_days n = (y, m, d) /\ days_from_civil y m 1 + d - 1 = n /\
    1900 <= y <= 2199 /\ 1 <= m <= 12 /\ 1 <= d <= 31 /\
    map Number (split "-" (dateToKey (LocalDay n))) = [Int y; Int m; Int d].
Proof.
  intro H.
  destruct (fields_in_range n H) as (y & m & d & E & En & Hy & Hm & Hd & Gy & Gm & Gd).
  exists y, m, d. repeat (split; [assumption|]).
  unfold dateToKey. rewrite Gy, Gm, Gd, add_Int, !String_of_number_Int.
  replace (m - 1 + 1) with m by lia.
  pose proof (all_from_spec _ _ _ years_checked y) as Ay.
  rewrite Z2Nat.id in Ay by lia. specialize (Ay ltac:(lia)).
  pose proof (all_from_spec _ _ _ fields_checked m) as Am.
  rewrite Z2Nat.id in Am by lia. specialize (Am ltac:(lia)).
  pose proof (all_from_spec _ _ _ fields_checked d) as Ad.
  rewrite Z2Nat.id in Ad by lia. specialize (Ad ltac:(lia)).
  apply field_facts in Ay, Am, Ad. rewrite padStart_0 in Ay.
  destruct Ay as [Ny Dy], Am as [Nm Dm], Ad as [Nd Dd].
  change (?a ++ "-" ++ ?b)%string with (a ++ String "-" b)%string.
  rewrite (split_prefix "-" _ _ Dy).
  change (?a ++ "-" ++ ?b)%string with (a ++ String "-" b)%string.
  rewrite (split_prefix "-" _ _ Dm), (split_no_sep "-" _ Dd).
  cbn [map]. now rewrite Ny, Nm, Nd.
Qed.

(** X4.  A day between 1900-01-01 and 2199-12-31 is read back from its
    key: [parseDateKey (dateToKey date)] is [date], so the selected date
    the component stores under its key is the one it starts from next
    time; when reading the stored key throws, or the key is absent, empty
    or not a date, it starts from the current date. *)
Theorem parseDateKey_dateToKey (n : Z) :
  FIRST_DAY <= n <= LAST_DAY ->
  parseDateKey (dateToKey (LocalDay n)) = Some (LocalDay n) /\
  (forall now, getInitialSelectedDate (item (Some (dateToKey (LocalDay n)))) now = LocalDay n) /\
  (forall now stored,
     stored = getItem_throws \/ stored = item None \/ stored = item (Some "") \/
     (exists value, stored = item (Some value) /\ parseDateKey value = None) ->
     getInitialSelectedDate stored now = now).
Proof.
  intro H.
  assert (R : parseDateKey (dateToKey (LocalDay n)) = Some (LocalDay n)).
  { destruct (dateToKey_parts n H) as (y & m & d & E & En & Hy & Hm & Hd & P).
    unfold parseDateKey. rewrite P. cbn [nth_error Number_isNaN Int orb ToNumber].
    fold (Int y) (Int m) (Int d) (Int 1). rewrite sub_Int.
    rewrite new_Date_civil by (rewrite ?En; try apply range_small; lia).
    rewrite En. unfold getFullYear, getMonth, getDate, strict_neq. rewrite E.
    now rewrite !strict_eq_Int, !Z.eqb_refl. }
  split; [exact R|]. split.
  - intro now. unfold getInitialSelectedDate.
    destruct (String.eqb_spec (dateToKey (LocalDay n)) "") as [E|_].
    + rewrite E in R. discriminate R.
    + now rewrite R.
  - intros now stored [->|[->|[->|(value & -> & E)]]]; try reflexivity.
    unfold getInitialSelectedDate. rewrite E. now destruct (String.eqb value "").
Qed.

Lemma parseDateKey_dateToKey_witness :
  parseDateKey (dateToKey (LocalDay 20759)) = Some (LocalDay 20759) /\
  (forall now, getInitialSelectedDate (item (Some (dateToKey (LocalDay 20759)))) now
               = LocalDay 20759) /\
  getInitialSelectedDate (item (Some "2026-02-30")) (LocalDay 20759) = LocalDay 20759.
Proof.
  destruct (parseDateKey_dateToKey 20759) as (A & B & C);
    [unfold FIRST_DAY, LAST_DAY; lia|].
  split; [exact A|]. split; [exact B|].
  apply C. right. right. right. exists "2026-02-30". split; [reflexivity|].
  vm_compute. reflexivity.
Defined.

(** X5.  [parseDateKey] returns a date only for a string with at least
    three dash-separated components, and the date is a valid one whose
    year, month index and day are the numbers of the first three
    components: a string with fewer components gives [null], not an
    invalid date. *)
Theorem parseDateKey_sound (value : string) (date : Date) :
  parseDateKey value = Some date ->
  exists ys ms ds rest n,
    split "-" value = ys :: ms :: ds :: rest /\
    date = LocalDay n /\
    date = new_Date (Number ys) (sub (Number ms) (Int 1)) (Number ds) /\
    strict_eq (getFullYear date) (Number ys) = true /\
    strict_eq (getMonth date) (sub (Number ms) (Int 1)) = true /\
    strict_eq (getDate date) (Number ds) = true.
Proof.
  unfold parseDateKey. intro H.
  destruct (split "-" value) as [|ys [|ms [|ds rest]]] eqn:Es;
    cbn [map nth_error] in H.
  - now apply split_nonempty in Es.
  - cbn [strict_neq] in H. rewrite !orb_true_r in H.
    destruct (_ || _) in H; discriminate H.
  - cbn [strict_neq] in H. rewrite !orb_true_r in H.
    destruct (_ || _) in H; discriminate H.
  - cbn [ToNumber strict_neq] in H.
    destruct (_ || _) in H; [discriminate H|].
    set (made := new_Date (Number ys) (sub (Number ms) (Int 1)) (Number ds)) in *.
    destruct (strict_eq (getFullYear made) (Number ys)) eqn:Ey;
      [|discriminate H].
    destruct (strict_eq (getMonth made) (sub (Number ms) (Int 1))) eqn:Em;
      [|discriminate H].
    destruct (strict_eq (getDate made) (Number ds)) eqn:Ed;
      [|discriminate H].
    cbn in H. injection H as <-.
    destruct made as [|n] eqn:Emade; [discriminate Ey|].
    exists ys, ms, ds, rest, n. repeat split; auto.
Qed.

Lemma parseDateKey_sound_witness :
  exists ys ms ds rest n,
    split "-" "2026-11-02" = ys :: ms :: ds :: rest /\
    LocalDay 20759 = LocalDay n /\
    LocalDay 20759 = new_Date (Number ys) (sub (Number ms) (Int 1)) (Number ds) /\
    strict_eq (getFullYear (LocalDay 20759)) (Number ys) = true /\
    strict_eq (getMonth (LocalDay 20759)) (sub (Number ms) (Int 1)) = true /\
    strict_eq (getDate (LocalDay 20759)) (Number ds) = true.
Proof. apply (parseDateKey_sound "2026-11-02" (LocalDay 20759)). reflexivity. Defined.




Lemma rem_Int (a : Z) (b : positive) :
  0 <= a -> rem (Int a) (Int (Zpos b)) = Int (a mod Zpos b).
Proof.
  intro H. unfold rem, Int, Qtrunc, Qnegative, Qzero. cbn -[Z.mul Z.div Z.modulo].
  replace (a * 1 <? 0) with false by (symmetry; apply Z.ltb_ge; lia).
  unfold inject_Z, Qminus, Qplus, Qopp, Qmult. cbn -[Z.mul Z.div Z.modulo].
  f_equal. f_equal.
  rewrite ?Z.mul_1_r, ?Pos.mul_1_l.
  pose proof (Z.div_mod a (Zpos b) ltac:(lia)). lia.
Qed.











End Dates.

(* ================================================================== *)
(** ** The rendered range *)

Section RenderedRange.

(** The two bounds for an integral item count and overscan. *)
Lemma getVirtualRange_Int (n o : Z) (s vs ve : Q) :
  0 < n -> ~ (s == 0)%Q ->
  getVirtualRange (Int n) (Fin s) (Fin vs) (Fin ve) (Int o) =
  {| VirtualRange.start := Int (Zclamp (Qfloor (Qmax vs 0 / s) - o) 0 (n - 1));
     VirtualRange.end_ := Int (Zclamp (Qceiling (Qmax ve 0 / s) + o) 0 (n - 1)) |}.
Proof.
  intros Hn Hs. unfold getVirtualRange.
  rewrite le_Int. replace (n <=? 0) with false by (symmetry; apply Z.leb_gt; lia).
  change (Math_max (Fin vs) (Int 0)) with (Math_max (Fin vs) (Fin 0)).
  change (Math_max (Fin ve) (Int 0)) with (Math_max (Fin ve) (Fin 0)).
  rewrite !Math_max_Fin, !(div_Fin _ s Hs).
  cbn [Math_floor Math_ceil].
  now rewrite sub_Int, add_Int, sub_Int, !clamp_Int.
Qed.





(** The indexes of an integral range. *)
Lemma visibleIndexes_Int (a b : Z) :
  b - a + 1 <= 2 ^ 32 - 1 ->
  visibleIndexes {| VirtualRange.start := Int a; VirtualRange.end_ := Int b |} =
  Some (map (fun i => Int (a + Z.of_nat i)) (seq 0 (Z.to_nat (b - a + 1)))).
Proof.
  intro H. unfold visibleIndexes. cbn [VirtualRange.start VirtualRange.end_].
  rewrite lt_Int. destruct (Z.ltb_spec b a) as [L|L].
  - now replace (Z.to_nat (b - a + 1)) with O by lia.
  - rewrite sub_Int, add_Int.
    assert (TL : ToLength (Int (b - a + 1)) = b - a + 1)
      by (unfold ToLength, Int; rewrite Qtrunc_inject_Z; lia).
    unfold Array_from_length. rewrite TL.
    replace (2 ^ 32 - 1 <? b - a + 1) with false by (symmetry; apply Z.ltb_ge; lia).
    f_equal. unfold Array_from. apply map_ext. intro i. apply add_Int.
Qed.

(** X10.  The row and column indexes rendered from a range of up to
    2^32 - 1 items of positive size are its indexes from start to end in
    order, each the index of an item; with no items nothing is rendered.
    [Array.from] never throws here. *)
Theorem visibleIndexes_of_range (n o : Z) (s vs ve : Q) :
  n <= 2 ^ 32 - 1 -> (0 < s)%Q ->
  exists a b,
    getVirtualRange (Int n) (Fin s) (Fin vs) (Fin ve) (Int o) =
      {| VirtualRange.start := Int a; VirtualRange.end_ := Int b |} /\
    visibleIndexes (getVirtualRange (Int n) (Fin s) (Fin vs) (Fin ve) (Int o)) =
      Some (map (fun i => Int (a + Z.of_nat i)) (seq 0 (Z.to_nat (b - a + 1)))) /\
    (forall i, (i < Z.to_nat (b - a + 1))%nat -> 0 <= a + Z.of_nat i < n) /\
    (n <= 0 -> Z.to_nat (b - a + 1) = O).
Proof.
  intros Hn Hs. destruct (Z_lt_le_dec 0 n) as [Hpos|Hzero].
  - exists (Zclamp (Qfloor (Qmax vs 0 / s) - o) 0 (n - 1)),
           (Zclamp (Qceiling (Qmax ve 0 / s) + o) 0 (n - 1)).
    rewrite getVirtualRange_Int by (assumption || lra).
    split; [reflexivity|]. unfold Zclamp.
    split; [apply visibleIndexes_Int; lia|]. split; lia.
  - exists 0, (-1).
    assert (E : getVirtualRange (Int n) (Fin s) (Fin vs) (Fin ve) (Int o) =
                {| VirtualRange.start := Int 0; VirtualRange.end_ := Int (-1) |}).
    { apply getVirtualRange_empty. change 0%Q with (inject_Z 0).
      rewrite <- Zle_Qle. exact Hzero. }
    rewrite E. split; [reflexivity|].
    split; [apply visibleIndexes_Int; lia|]. split; [|reflexivity].
    intros i Hi. change (Z.to_nat (-1 - 0 + 1)) with O in Hi. lia.
Qed.

Lemma visibleIndexes_of_range_witness :
  exists a b,
    getVirtualRange (Int 10) (Fin 50) (Fin 120) (Fin 320) (Int 1) =
      {| VirtualRange.start := Int a; VirtualRange.end_ := Int b |} /\
    visibleIndexes (getVirtualRange (Int 10) (Fin 50) (Fin 120) (Fin 320) (Int 1)) =
      Some (map (fun i => Int (a + Z.of_nat i)) (seq 0 (Z.to_nat (b - a + 1)))) /\
    (forall i, (i < Z.to_nat (b - a + 1))%nat -> 0 <= a + Z.of_nat i < 10) /\
    (10 <= 0 -> Z.to_nat (b - a + 1) = O).
Proof. apply (visibleIndexes_of_range 10 1 50 120 320); [lia|reflexivity]. Defined.

End RenderedRange.

(* ================================================================== *)
(** ** Column widths and the resize scale *)

Section Scale.

Lemma employeeColumnWidth_cases (viewportWidth : number) :
  employeeColumnWidth viewportWidth = Int 130 \/
  employeeColumnWidth viewportWidth = Int 180.
Proof.
  unfold employeeColumnWidth. destruct (_ && _); [now left|now right].
Qed.

Lemma max_with_one (x : Q) :
  exists c : Q, Math_max (div (Fin x) (Int 7)) (Int 1) = Fin c /\ (1 <= c)%Q.
Proof.
  exists (Qmax (x / 7) 1). split; [|apply Q.le_max_r].
  unfold Int. rewrite div_Fin by discriminate.
  change (Fin (inject_Z 1)) with (Fin 1). now rewrite Math_max_Fin.
Qed.

Lemma columnWidth_Fin (viewMode : ViewMode.t) (isMobile : bool) (w : Q) :
  exists c : Q, columnWidth viewMode isMobile (Fin w) = Fin c /\ (1 <= c)%Q.
Proof.
  assert (D : exists c : Q, DATE_CELL_WIDTH = Fin c /\ (1 <= c)%Q)
    by (exists 160%Q; split; [reflexivity|discriminate]).
  destruct viewMode; cbn [columnWidth weekAdaptiveColumnWidth]; try exact D.
  - exists 72%Q. split; [reflexivity|discriminate].
  - destruct (negb isMobile && gt (Fin w) (Int 0)); [|exact D].
    destruct (employeeColumnWidth_cases (Fin w)) as [-> | ->];
      [change (sub (Fin w) (Int 130)) with (Fin (w - 130))
      |change (sub (Fin w) (Int 180)) with (Fin (w - 180))];
      apply max_with_one.
Qed.

Lemma dateTimelineHourWidth_Fin (viewMode : ViewMode.t) (isMobile : bool) (w : Q) :
  exists h : Q, dateTimelineHourWidth viewMode isMobile (Fin w) = Fin h /\ (1 <= h)%Q.
Proof.
  unfold dateTimelineHourWidth.
  destruct (columnWidth_Fin viewMode isMobile w) as (c & -> & _).
  exists (Qmax ((c - 12) / 24) 1). split; [|apply Q.le_max_r].
  change (sub (Fin c) (mul DATE_CELL_PADDING (Int 2))) with (Fin (c - 12)).
  unfold Int. rewrite div_Fin by discriminate.
  change (Fin (inject_Z 1)) with (Fin 1). now rewrite Math_max_Fin.
Qed.

Lemma handlePixelsPerHour_Fin (viewMode : ViewMode.t) (isMobile : bool) (w : Q) :
  exists p : Q, handlePixelsPerHour viewMode isMobile (Fin w) = Fin p /\ (1 <= p)%Q.
Proof.
  destruct viewMode; cbn [handlePixelsPerHour];
    try apply dateTimelineHourWidth_Fin.
  exists 72%Q. split; [reflexivity|discriminate].
Qed.

(** X11.  Whatever the view mode, the device class and the measured
    viewport width (also zero or negative), the column width and the
    pixels per hour of the date timeline are finite and at least 1, and
    the employee column is 130 or 180 wide: the virtualizer and the resize
    never divide by zero. *)
Theorem grid_scales_positive (viewMode : ViewMode.t) (isMobile : bool) (w : Q) :
  (exists c : Q, columnWidth viewMode isMobile (Fin w) = Fin c /\ (1 <= c)%Q) /\
  (exists h : Q, dateTimelineHourWidth viewMode isMobile (Fin w) = Fin h /\ (1 <= h)%Q) /\
  (employeeColumnWidth (Fin w) = Int 130 \/ employeeColumnWidth (Fin w) = Int 180) /\
  (employeeColumnWidth (Fin w) = Int 130 <-> (0 < w <= 900)%Q).
Proof.
  split; [apply columnWidth_Fin|]. split; [apply dateTimelineHourWidth_Fin|].
  split; [apply employeeColumnWidth_cases|].
  unfold employeeColumnWidth, gt, MOBILE_BREAKPOINT.
  change (Int 0) with (Fin 0). change (Int 900) with (Fin 900).
  destruct (lt (Fin 0) (Fin w)) eqn:L; destruct (le (Fin w) (Fin 900)) eqn:U;
    cbn [andb]; (split; [intro E|intros [A B]]);
    try reflexivity; try discriminate E.
  - split; [now apply lt_Fin|now apply le_Fin].
  - apply le_Fin in B. congruence.
  - apply lt_Fin in A. congruence.
  - apply lt_Fin in A. congruence.
Qed.

(** X12.  A resize started from any handle of either grid keeps the
    shift invariants, however far the pointer moves: the scale a handle
    passes is never zero. *)
Theorem resize_from_handle_preserves_valid
    (viewMode : ViewMode.t) (isMobile : bool) (w : Q)
    (captured : Shift) (edge : Edge) (ox cx : Q) (prev : list Shift) :
  valid_shift captured ->
  Forall valid_shift prev ->
  Forall valid_shift
    (onPointerMove
       (startResize (Fin ox) captured edge (handlePixelsPerHour viewMode isMobile (Fin w)))
       (Fin cx) prev).
Proof.
  intros Hc Hp.
  destruct (handlePixelsPerHour_Fin viewMode isMobile w) as (p & -> & Hp1).
  apply onPointerMove_preserves_valid; [exact Hc| |exact Hp].
  intro E. lra.
Qed.

Lemma resize_from_handle_preserves_valid_witness :
  let shift := {| id := "s"; employeeId := "e1"; dateKey := "2024-01-15";
                  title := "t"; start := Int 540; end_ := Int 780 |} in
  Forall valid_shift
    (onPointerMove
       (startResize (Fin 100) shift edge_right
          (handlePixelsPerHour ViewMode.week false (Fin 1280)))
       (Fin 5000) [shift]).
Proof.
  intro shift.
  assert (V : valid_shift shift).
  { exists 540, 780. repeat split; try reflexivity; try lia.
    - now exists 36.
    - now exists 52. }
  apply (resize_from_handle_preserves_valid ViewMode.week false 1280 shift edge_right
           100 5000 [shift] V).
  constructor; [exact V|constructor].
Defined.

End Scale.

(* ================================================================== *)
(** ** The drop on the day timeline *)

Section DropOnTimeline.

(** The hour cell under the pointer. *)
Lemma drop_hour (clientX rect_left rect_width : Q) :
  mul (clamp (Math_floor (div (clamp (sub (Fin clientX) (Fin rect_left)) (Int 0)
                                     (sub (Fin rect_width) (Int 1)))
                              HOUR_WIDTH))
             (Int 0) (sub HOURS_length (Int 1)))
      (Int 60) =
  Int (Zclamp (Qfloor (Qclamp (clientX - rect_left) 0 (rect_width - 1) / 72)) 0 23 * 60).
Proof.
  change (sub (Fin clientX) (Fin rect_left)) with (Fin (clientX - rect_left)).
  change (sub (Fin rect_width) (Int 1)) with (Fin (rect_width - 1)).
  change (Int 0) with (Fin 0) at 1. rewrite clamp_Fin.
  unfold HOUR_WIDTH, HOURS_length. change (Int 72) with (Fin 72).
  rewrite div_Fin by (intro Q0; discriminate Q0).
  cbn [Math_floor]. now rewrite sub_Int, clamp_Int, mul_Int.
Qed.

(** X13.  A drop with a shift id onto the day timeline keeps the length
    and order of the collection and every other shift; the dragged shift
    gets the target employee and date, keeps its id, title and duration,
    and starts at the hour under the pointer (0 to 23), moved back as far
    as needed for the shift to end by 24:00. *)
Theorem drop_on_timeline_moves
    (shiftId : string) (clientX rect_left rect_width : Q) (E D : string)
    (prev : list Shift) (i : nat) (s : Shift) (a b : Z) :
  shiftId <> "" ->
  nth_error prev i = Some s ->
  start s = Int a -> end_ s = Int b ->
  let next := handleDropOnTimeline shiftId (Fin clientX) (Fin rect_left)
                                   (Fin rect_width) E D prev in
  let hour := Zclamp (Qfloor (Qclamp (clientX - rect_left) 0 (rect_width - 1) / 72)) 0 23 in
  let nextStart := Zclamp (hour * 60) 0 (1440 - (b - a)) in
  List.length next = List.length prev /\
  0 <= hour <= 23 /\
  exists s' : Shift,
    nth_error next i = Some s' /\
    id s' = id s /\ title s' = title s /\
    (id s <> shiftId -> s' = s) /\
    (id s = shiftId ->
       employeeId s' = E /\ dateKey s' = D /\
       start s' = Int nextStart /\ end_ s' = Int (nextStart + (b - a)) /\
       (0 <= b - a <= 1440 -> 0 <= nextStart <= hour * 60 /\ nextStart + (b - a) <= 1440)).
Proof.
  intros Hne Hi Ha Hb next hour nextStart.
  unfold next, handleDropOnTimeline.
  destruct (String.eqb_spec shiftId "") as [Hempty|_]; [contradiction|].
  split; [apply length_map|]. split; [unfold hour, Zclamp; lia|].
  rewrite drop_hour. fold hour.
  eexists. split; [apply nth_error_map_some; exact Hi|].
  destruct (String.eqb_spec (id s) shiftId) as [Eq|Nq]; cbn [negb].
  - cbn [id title employeeId dateKey start end_ with_times with_cell].
    rewrite Ha, Hb. unfold MINUTES_IN_DAY.
    rewrite !sub_Int, clamp_Int, add_Int. fold nextStart.
    repeat split; try reflexivity; try contradiction;
      unfold nextStart, hour, Zclamp; lia.
  - repeat split; try reflexivity; contradiction.
Qed.

Lemma drop_on_timeline_moves_witness :
  let shift := {| id := "s"; employeeId := "e1"; dateKey := "2024-01-15";
                  title := "t"; start := Int 540; end_ := Int 780 |} in
  let next := handleDropOnTimeline "s" (Fin 1700) (Fin 180) (Fin 1728)
                                   "e2" "2024-01-15" [shift] in
  let hour := Zclamp (Qfloor (Qclamp (1700 - 180) 0 (1728 - 1) / 72)) 0 23 in
  let nextStart := Zclamp (hour * 60) 0 (1440 - (780 - 540)) in
  next = [ {| id := "s"; employeeId := "e2"; dateKey := "2024-01-15";
              title := "t"; start := Int 1200; end_ := Int 1440 |} ] /\
  List.length next = List.length [shift] /\
  0 <= hour <= 23 /\
  exists s' : Shift,
    nth_error next 0 = Some s' /\
    id s' = id shift /\ title s' = title shift /\
    (id shift <> "s" -> s' = shift) /\
    (id shift = "s" ->
       employeeId s' = "e2" /\ dateKey s' = "2024-01-15" /\
       start s' = Int nextStart /\ end_ s' = Int (nextStart + (780 - 540)) /\
       (0 <= 780 - 540 <= 1440 -> 0 <= nextStart <= hour * 60 /\ nextStart + (780 - 540) <= 1440)).
Proof.
  intros shift next hour nextStart. split; [reflexivity|].
  apply (drop_on_timeline_moves "s" 1700 180 1728 "e2" "2024-01-15" [shift] 0 shift 540 780);
    [discriminate|reflexivity|reflexivity|reflexivity].
Defined.

End DropOnTimeline.

(* ================================================================== *)
(** ** The index and the handlers *)

Section IndexComplete.

Lemma in_lookup_iff (shifts : list Shift) (e d : string) (s : Shift) :
  In s (getShiftsForCell shifts e d) <->
  In s shifts /\ dateCellKey (employeeId s) (dateKey s) = dateCellKey e d.
Proof.
  rewrite getShiftsForCell_by_key.
  split.
  - intro H. apply (Permutation_in _ (Array_sort_perm _ _)) in H.
    apply filter_In in H. destruct H as [H K]. split; [exact H|].
    unfold has_key in K. now apply String.eqb_eq in K.
  - intros [H K].
    apply (Permutation_in _ (Permutation_sym (Array_sort_perm _ _))).
    apply filter_In. split; [exact H|]. unfold has_key. now apply String.eqb_eq.
Qed.

(** X14.  The index neither loses nor invents a shift, whatever the ids,
    date keys and start values are: every shift of the collection is in
    the lookup of its own cell, every lookup has as many shifts as the
    collection has under that key, and a shift a lookup returns is in the
    collection. *)
Theorem index_complete (shifts : list Shift) :
  (forall s, In s shifts -> In s (getShiftsForCell shifts (employeeId s) (dateKey s))) /\
  (forall e d s, In s (getShiftsForCell shifts e d) -> In s shifts) /\
  (forall e d,
     List.length (getShiftsForCell shifts e d) =
     List.length (filter (has_key (dateCellKey e d)) shifts)).
Proof.
  split; [|split].
  - intros s H. apply in_lookup_iff. now split.
  - intros e d s H. now apply in_lookup_iff in H.
  - intros e d. rewrite getShiftsForCell_by_key.
    apply Permutation_length, Array_sort_perm.
Qed.

Lemma index_complete_witness :
  let A := {| id := "A"; employeeId := "e1"; dateKey := "2024-01-15";
              title := "a"; start := NaN; end_ := Int 720 |} in
  In A (getShiftsForCell [A] (employeeId A) (dateKey A)).
Proof.
  intro A. apply (proj1 (index_complete [A]) A). now left.
Defined.

(** X15.  After a drop onto the date cell of employee [E] and date [D],
    the lookup of that cell returns the dragged shift with its new cell,
    and no lookup returns a shift with the dragged id for another key. *)
Theorem dropped_shift_is_in_target_cell
    (shiftId E D : string) (prev : list Shift) (s : Shift) :
  shiftId <> "" -> In s prev -> id s = shiftId ->
  let next := handleDropOnDateCell shiftId E D prev in
  In (with_cell s E D) (getShiftsForCell next E D) /\
  (forall e d s', In s' (getShiftsForCell next e d) -> id s' = shiftId ->
                  dateCellKey e d = dateCellKey E D).
Proof.
  intros Hne Hin Hid next. unfold next, handleDropOnDateCell.
  destruct (String.eqb_spec shiftId "") as [|_]; [contradiction|].
  split.
  - apply in_lookup_iff. split; [|reflexivity].
    apply in_map_iff. exists s. split; [|exact Hin].
    now rewrite Hid, String.eqb_refl.
  - intros e d s' H' Hid'. apply in_lookup_iff in H'. destruct H' as [H' K].
    apply in_map_iff in H'. destruct H' as (x & Ex & _).
    destruct (String.eqb_spec (id x) shiftId) as [Eq|Nq]; subst s'.
    + now rewrite <- K.
    + contradiction.
Qed.

Lemma dropped_shift_is_in_target_cell_witness :
  let a := {| id := "a"; employeeId := "e1"; dateKey := "2024-01-15";
              title := "t"; start := Int 540; end_ := Int 780 |} in
  let b := {| id := "b"; employeeId := "e3"; dateKey := "2024-01-20";
              title := "u"; start := Int 300; end_ := Int 360 |} in
  let next := handleDropOnDateCell "a" "e3" "2024-01-20" [a; b] in
  getShiftsForCell next "e3" "2024-01-20" = [b; with_cell a "e3" "2024-01-20"] /\
  In (with_cell a "e3" "2024-01-20") (getShiftsForCell next "e3" "2024-01-20") /\
  (forall e d s', In s' (getShiftsForCell next e d) -> id s' = "a" ->
                  dateCellKey e d = dateCellKey "e3" "2024-01-20").
Proof.
  intros a b next. split; [reflexivity|].
  apply (dropped_shift_is_in_target_cell "a" "e3" "2024-01-20" [a; b] a);
    [discriminate|now left|reflexivity].
Defined.

End IndexComplete.

(* ================================================================== *)
(** ** The modal: open, save, delete *)

Section ModalFlows.

Variable t : Translations.
Variable uuid : string.

(** On integral minutes the source's [formatTime] prints what
    [formatTime] on integers prints. *)
Lemma formatTime_number_Int (m : Z) : formatTime_number (Int m) = formatTime m.
Proof.
  unfold formatTime_number, formatTime, MINUTES_IN_DAY.
  rewrite clamp_Int. set (n := Zclamp m 0 (24 * 60)).
  assert (Hn : 0 <= n) by (unfold n, Zclamp; lia).
  change (Int 60) with (Int (Zpos 60)). rewrite rem_Int by exact Hn.
  assert (F : Math_floor (div (Int n) (Int (Zpos 60))) = Int (n / 60)).
  { unfold Int. rewrite div_Fin by discriminate. cbn [Math_floor].
    unfold Int. do 2 f_equal.
    unfold Qdiv, Qmult, Qinv, inject_Z, Qfloor. cbn -[Z.mul Z.div].
    now rewrite Z.mul_1_r. }
  rewrite F. now rewrite !String_of_number_Int.
Qed.

Lemma parseTime_formatTime_Int (m : Z) :
  0 <= m <= 1439 -> parseTime (formatTime m) = Some (Int m).
Proof.
  intro H. pose proof roundtrips_all_day as A.
  rewrite forallb_forall in A. specialize (A (Z.to_nat m)).
  unfold roundtrips in A. rewrite Z2Nat.id in A by lia.
  destruct (parseTime (formatTime m)) as [x|].
  - f_equal. apply number_eqb_eq. apply A. apply in_seq. lia.
  - discriminate A. apply in_seq. lia.
Qed.

Lemma snapToStep_multiple (k : Z) : snapToStep (Int (15 * k)) = Int (15 * k).
Proof.
  rewrite snapToStep_Int. f_equal.
  replace (2 * (15 * k) + 15) with (15 + k * 30) by lia.
  rewrite Z.div_add by lia. change (15 / 30) with 0. lia.
Qed.

(** A time field filled from a multiple of 15 before midnight reads back
    as that multiple. *)
Lemma field_of_multiple (k : Z) :
  0 <= 15 * k <= 1439 ->
  option_map snapToStep (parseTime (formatTime_number (Int (15 * k)))) = Some (Int (15 * k)).
Proof.
  intro H. rewrite formatTime_number_Int, parseTime_formatTime_Int by exact H.
  cbn [option_map]. now rewrite snapToStep_multiple.
Qed.

Lemma field_of_midnight (b : Z) :
  1440 <= b -> parseTime (formatTime_number (Int b)) = None.
Proof.
  intro H. rewrite formatTime_number_Int. unfold formatTime, Zclamp.
  replace (Z.min (Z.max b 0) (24 * 60)) with 1440 by lia. reflexivity.
Qed.

(** X16.  Saving the create modal as it opens, for a start of up to
    1402 minutes (every hour cell of the day grid and the default 09:00)
    and a date key that parses, appends one shift to the collection: it
    starts at the snapped start, lasts four hours or ends at 23:45 if that
    is earlier, and satisfies the shift invariants; the modal closes with
    no error. *)
Theorem create_modal_defaults_save
    (newShiftTitle E D : string) (m : Z) (st : ModalState) :
  0 <= m <= 1402 ->
  parseDateKey D <> None ->
  let S := (2 * m + 15) / 30 * 15 in
  let added := {| id := uuid; employeeId := E; dateKey := D;
                  title := or_else (trim newShiftTitle) (defaultShiftTitle t);
                  start := Int S; end_ := Int (Z.min (S + 240) 1425) |} in
  handleSaveShift t uuid (openCreateShiftModal newShiftTitle E D (Int m) st) =
    {| shifts := (shifts st ++ [added])%list; modalDraft := None; error := None |} /\
  valid_shift added.
Proof.
  intros Hm HD S added.
  assert (HS : exists k, S = 15 * k /\ 0 <= k <= 93).
  { exists ((2 * m + 15) / 30). split; [unfold S; lia|].
    split; [apply Z.div_pos; lia|].
    apply Z.lt_succ_r. apply Z.div_lt_upper_bound; lia. }
  destruct HS as (k & HS & Hk).
  assert (HE : exists j, Z.min (S + 240) 1425 = 15 * j /\ 0 <= j <= 95).
  { destruct (Z_le_gt_dec (S + 240) 1425).
    - exists (k + 16). rewrite Z.min_l by lia. lia.
    - exists 95. rewrite Z.min_r by lia. lia. }
  destruct HE as (j & HE & Hj).
  split.
  - erewrite (handleSaveShift_create t uuid _ _ S (Z.min (S + 240) 1425)); cycle 1.
    + reflexivity.
    + reflexivity.
    + exact HD.
    + cbn [ModalDraft.startTime]. rewrite snapToStep_Int. fold S.
      rewrite HS. apply field_of_multiple. lia.
    + cbn [ModalDraft.endTime]. rewrite snapToStep_Int. fold S.
      unfold MAX_MODAL_MINUTES, MINUTES_IN_DAY, SNAP_MINUTES, MIN_SHIFT_MINUTES.
      rewrite !add_Int, sub_Int, clamp_Int. unfold Zclamp.
      replace (Z.min (Z.max (S + 4 * 60) (S + 30)) (24 * 60 - 15))
        with (Z.min (S + 240) 1425) by lia.
      rewrite HE. apply field_of_multiple. lia.
    + lia.
    + lia.
    + reflexivity.
  - exists S, (Z.min (S + 240) 1425). repeat split; try lia.
    + exists k. lia.
    + exists j. lia.
Qed.


(** X18.  A shift that ends at 24:00 or later cannot be saved from the
    edit modal as it opens: its end is printed as ["24:00"], which
    [parseTime] rejects, so the handler sets the invalid-time message and
    leaves the collection and the open draft as they are. *)
Theorem edit_modal_rejects_midnight_end (s : Shift) (st : ModalState) (b : Z) :
  end_ s = Int b -> 1440 <= b ->
  parseDateKey (dateKey s) <> None ->
  let opened := openEditShiftModal s st in
  option_map ModalDraft.endTime (modalDraft opened) = Some "24:00" /\
  handleSaveShift t uuid opened =
    {| shifts := shifts st; modalDraft := modalDraft opened;
       error := Some (invalidTime t) |}.
Proof.
  intros Hb H HD opened. unfold opened, openEditShiftModal. split.
  - cbn [option_map modalDraft ModalDraft.endTime].
    rewrite Hb, formatTime_number_Int. unfold formatTime, Zclamp.
    now replace (Z.min (Z.max b 0) (24 * 60)) with 1440 by lia.
  - unfold handleSaveShift.
    cbn [modalDraft ModalDraft.dateKey ModalDraft.startTime ModalDraft.endTime].
    destruct (parseDateKey (dateKey s)); [|contradiction].
    rewrite Hb, (field_of_midnight b H).
    destruct (parseTime (formatTime_number (start s))); reflexivity.
Qed.

(** X19.  Deleting from the edit modal of a shift removes every shift
    with that id and nothing else, keeps the others in order, keeps the
    invariants and closes the modal; without an edit draft nothing
    changes. *)
Theorem delete_from_edit_modal (s : Shift) (st : ModalState) :
  id s <> "" ->
  let st' := handleDeleteShift (openEditShiftModal s st) in
  shifts st' = filter (fun shift => negb (String.eqb (id shift) (id s))) (shifts st) /\
  modalDraft st' = None /\
  (forall x, In x (shifts st') <-> In x (shifts st) /\ id x <> id s) /\
  (Forall valid_shift (shifts st) -> Forall valid_shift (shifts st')) /\
  (modalDraft st = None -> handleDeleteShift st = st).
Proof.
  intros Hid st'. unfold st', handleDeleteShift, openEditShiftModal.
  cbn [modalDraft ModalDraft.mode ModalDraft.shiftId].
  destruct (String.eqb_spec (id s) "") as [|_]; [contradiction|].
  cbn [closeModal setShifts shifts modalDraft].
  split; [reflexivity|]. split; [reflexivity|]. split; [|split].
  - intro x. rewrite filter_In, negb_true_iff.
    split; intros [A B]; (split; [exact A|]).
    + now apply String.eqb_neq.
    + now apply String.eqb_neq.
  - intro H. rewrite Forall_forall in *. intros x Hx.
    apply filter_In in Hx. now apply H.
  - now intros ->.
Qed.

End ModalFlows.

Lemma create_modal_defaults_save_witness :
  let st := {| shifts := []; modalDraft := None; error := None |} in
  let added := {| id := "generated-id"; employeeId := "e1"; dateKey := "2026-11-02";
                  title := or_else (trim "New shift") (defaultShiftTitle translations_en);
                  start := Int ((2 * 1380 + 15) / 30 * 15);
                  end_ := Int (Z.min ((2 * 1380 + 15) / 30 * 15 + 240) 1425) |} in
  handleSaveShift translations_en "generated-id" (openCreateShiftModal "New shift" "e1" "2026-11-02" (Int 1380) st) =
    {| shifts := (shifts st ++ [added])%list; modalDraft := None; error := None |} /\
  valid_shift added.
Proof.
  intros st added.
  apply (create_modal_defaults_save translations_en "generated-id" "New shift" "e1" "2026-11-02" 1380 st); [lia|].
  intro H. vm_compute in H. discriminate H.
Defined.


Lemma edit_modal_rejects_midnight_end_witness :
  let s := {| id := "s1"; employeeId := "e1"; dateKey := "2024-01-15";
              title := "Late"; start := Int 1200; end_ := Int 1440 |} in
  let st := {| shifts := [s]; modalDraft := None; error := None |} in
  let opened := openEditShiftModal s st in
  option_map ModalDraft.endTime (modalDraft opened) = Some "24:00" /\
  handleSaveShift translations_en "generated-id" opened =
    {| shifts := shifts st; modalDraft := modalDraft opened;
       error := Some (invalidTime translations_en) |}.
Proof.
  intros s st.
  apply (edit_modal_rejects_midnight_end translations_en "generated-id" s st 1440); [reflexivity|lia|].
  intro H. vm_compute in H. discriminate H.
Defined.

Lemma delete_from_edit_modal_witness :
  let s := {| id := "s1"; employeeId := "e1"; dateKey := "2024-01-15";
              title := "Morning"; start := Int 540; end_ := Int 780 |} in
  let other := {| id := "s2"; employeeId := "e2"; dateKey := "2024-01-15";
                  title := "Day"; start := Int 720; end_ := Int 1080 |} in
  let st := {| shifts := [s; other; s]; modalDraft := None; error := None |} in
  let st' := handleDeleteShift (openEditShiftModal s st) in
  shifts st' = [other] /\
  shifts st' = filter (fun shift => negb (String.eqb (id shift) (id s))) (shifts st) /\
  modalDraft st' = None /\
  (forall x, In x (shifts st') <-> In x (shifts st) /\ id x <> id s) /\
  (Forall valid_shift (shifts st) -> Forall valid_shift (shifts st')) /\
  (modalDraft st = None -> handleDeleteShift st = st).
Proof.
  intros s other st. split; [reflexivity|].
  apply (delete_from_edit_modal s st). discriminate.
Defined.

(* ================================================================== *)
(** ** indexedDb.ts: what is stored and what is loaded *)

Section Storage.

Lemma isValidShift_js_of_shift (s : Shift) : isValidShift (js_of_shift s) = true.
Proof. reflexivity. Qed.

Lemma shift_of_js_of_shift (s : Shift) : shift_of_js (js_of_shift s) = Some s.
Proof. now destruct s. Qed.

Lemma store_get_put (value : JsValue) (key : string) (store : ObjectStore) :
  store_get key (store_put value key store) = value.
Proof.
  unfold store_get. induction store as [|[k v] rest IH]; cbn [store_put lookup_prop].
  - now rewrite String.eqb_refl.
  - destruct (String.eqb k key) eqn:E; cbn [lookup_prop]; rewrite E; auto.
Qed.

Lemma store_get_put_other (value : JsValue) (key key' : string) (store : ObjectStore) :
  key' <> key ->
  store_get key' (store_put value key store) = store_get key' store.
Proof.
  intro H. unfold store_get.
  induction store as [|[k v] rest IH]; cbn [store_put lookup_prop].
  - destruct (String.eqb_spec key key'); [congruence|reflexivity].
  - destruct (String.eqb_spec k key) as [->|N]; cbn [lookup_prop].
    + destruct (String.eqb_spec key key'); [congruence|reflexivity].
    + destruct (String.eqb k key'); [reflexivity|exact IH].
Qed.

Lemma filter_all {A : Type} (p : A -> bool) (l : list A) :
  (forall x, In x l -> p x = true) -> filter p l = l.
Proof.
  induction l as [|x l IH]; intro H; [reflexivity|].
  cbn [filter]. rewrite (H x (or_introl eq_refl)). f_equal.
  apply IH. intros y Hy. apply H. now right.
Qed.

(** X20.  What is saved is what is loaded: after a save of a collection
    into an open database, the load resolves with the stored form of
    exactly these shifts, in order, and each reads back as the shift it
    was; the other keys of the store keep their values. *)
Theorem save_then_load (shifts : list Shift) (store : ObjectStore) :
  let '(saved, idb) := saveShiftsToIndexedDb shifts (idb_database store) in
  saved = resolved tt /\
  loadShiftsFromIndexedDb idb = resolved (Some (List.map js_of_shift shifts)) /\
  List.map shift_of_js (List.map js_of_shift shifts) = List.map Some shifts /\
  (forall key, key <> SHIFTS_KEY ->
     match idb with
     | idb_database store' => store_get key store' = store_get key store
     | idb_undefined => False
     end).
Proof.
  cbn [saveShiftsToIndexedDb]. split; [reflexivity|]. split; [|split].
  - unfold loadShiftsFromIndexedDb. rewrite store_get_put. do 2 f_equal.
    apply filter_all. intros x Hx. apply in_map_iff in Hx.
    destruct Hx as (s & <- & _). apply isValidShift_js_of_shift.
  - rewrite map_map. apply map_ext. intro s. apply shift_of_js_of_shift.
  - intros key Hkey. now apply store_get_put_other.
Qed.

Lemma typeof_string (v : JsValue) :
  String.eqb (typeof v) "string" = true -> exists s, v = js_string s.
Proof. destruct v; try discriminate. intros _. now eexists. Qed.

Lemma typeof_number (v : JsValue) :
  String.eqb (typeof v) "number" = true -> exists n, v = js_number n.
Proof. destruct v; try discriminate. intros _. now eexists. Qed.

(** X21.  The load resolves with [null] unless the stored value is an
    array, and otherwise with the entries of the array that have the six
    typed fields of a shift, in their order: every entry it returns reads
    as a shift, and no entry that reads as a shift is dropped.  The check
    is on types only: a shift whose start is NaN passes it.  Without IndexedDB both operations
    reject and nothing is stored. *)
Theorem load_returns_typed_shifts (store : ObjectStore) :
  (forall data, store_get SHIFTS_KEY store = js_array data ->
     loadShiftsFromIndexedDb (idb_database store) =
       resolved (Some (filter isValidShift data)) /\
     (forall v, In v (filter isValidShift data) ->
        In v data /\ exists s, shift_of_js v = Some s) /\
     (forall v s, In v data -> shift_of_js v = Some s ->
        In v (filter isValidShift data))) /\
  ((forall data, store_get SHIFTS_KEY store <> js_array data) ->
     loadShiftsFromIndexedDb (idb_database store) = resolved None) /\
  (forall s, start s = NaN -> isValidShift (js_of_shift s) = true /\ ~ valid_shift s) /\
  (exists reason, loadShiftsFromIndexedDb idb_undefined = rejected reason) /\
  (forall shifts, exists reason,
     saveShiftsToIndexedDb shifts idb_undefined = (rejected reason, idb_undefined)).
Proof.
  split; [|split; [|split; [|split]]].
  - intros data Hd. unfold loadShiftsFromIndexedDb. rewrite Hd.
    split; [reflexivity|]. split.
    + intros v Hv. apply filter_In in Hv. destruct Hv as [Hin Hv].
      split; [exact Hin|].
      unfold isValidShift in Hv.
      destruct (negb (truthy v) || negb (String.eqb (typeof v) "object"));
        [discriminate Hv|].
      rewrite !andb_true_iff in Hv.
      destruct Hv as [[[[[H1 H2] H3] H4] H5] H6].
      apply typeof_string in H1, H2, H3, H4. apply typeof_number in H5, H6.
      destruct H1 as [? E1], H2 as [? E2], H3 as [? E3], H4 as [? E4],
               H5 as [? E5], H6 as [? E6].
      unfold shift_of_js. rewrite E1, E2, E3, E4, E5, E6. now eexists.
    + intros v s Hin Hs. apply filter_In. split; [exact Hin|].
      destruct v as [| | | | |items|props]; try discriminate Hs.
      unfold shift_of_js in Hs. unfold isValidShift. cbn [truthy typeof negb orb].
      rewrite String.eqb_refl. cbn [negb].
      destruct (get_prop (js_object props) "id"); try discriminate Hs.
      destruct (get_prop (js_object props) "employeeId"); try discriminate Hs.
      destruct (get_prop (js_object props) "dateKey"); try discriminate Hs.
      destruct (get_prop (js_object props) "title"); try discriminate Hs.
      destruct (get_prop (js_object props) "start"); try discriminate Hs.
      destruct (get_prop (js_object props) "end"); try discriminate Hs.
      reflexivity.
  - intro H. unfold loadShiftsFromIndexedDb.
    destruct (store_get SHIFTS_KEY store) eqn:E; try reflexivity.
    exfalso. now apply (H items).
  - intros s Hs. split; [reflexivity|].
    intros (a & b & Ha & _). rewrite Hs in Ha. discriminate Ha.
  - now eexists.
  - intro shifts. now eexists.
Qed.

Lemma load_returns_typed_shifts_witness :
  let s := {| id := "s1"; employeeId := "e1"; dateKey := "2024-01-15";
              title := "Morning"; start := Int 540; end_ := Int 780 |} in
  let data := [js_of_shift s; js_string "x"; js_null; js_array []] in
  let store := [("shifts", js_array data)] in
  loadShiftsFromIndexedDb (idb_database store) = resolved (Some [js_of_shift s]) /\
  loadShiftsFromIndexedDb (idb_database store) =
    resolved (Some (filter isValidShift data)) /\
  (forall v, In v (filter isValidShift data) ->
     In v data /\ exists s, shift_of_js v = Some s) /\
  (forall v s, In v data -> shift_of_js v = Some s ->
     In v (filter isValidShift data)).
Proof.
  intros s data store. split; [reflexivity|].
  apply (proj1 (load_returns_typed_shifts store) data). reflexivity.
Defined.

End Storage.

(* ================================================================== *)
(** ** What the save effect writes *)

Section SavedState.





End SavedState.

(* ================================================================== *)
(** ** The scroll to the selected date *)

Section ScrollTarget.

Lemma findIndex_from_spec {A : Type} (p : A -> bool) (l : list A) (i : Z) :
  0 <= i ->
  findIndex_from p l i = -1 /\ (forall x, In x l -> p x = false) \/
  i <= findIndex_from p l i < i + Z.of_nat (List.length l) /\
  exists x, nth_error l (Z.to_nat (findIndex_from p l i - i)) = Some x /\ p x = true.
Proof.
  revert i. induction l as [|x l IH]; intros i Hi; cbn [findIndex_from].
  - left. split; [reflexivity|]. intros x [].
  - destruct (p x) eqn:E.
    + right. split; [cbn [List.length]; lia|].
      exists x. rewrite Z.sub_diag. now split.
    + destruct (IH (i + 1) ltac:(lia)) as [(F & Hall)|(B & y & Hy & Py)].
      * left. split; [exact F|].
        intros z [<-|Hz]; [exact E|now apply Hall].
      * right. split; [cbn [List.length]; lia|].
        exists y. split; [|exact Py].
        replace (Z.to_nat (findIndex_from p l (i + 1) - i))
          with (S (Z.to_nat (findIndex_from p l (i + 1) - (i + 1)))) by lia.
        exact Hy.
Qed.

(** X23.  When the effect scrolls to the selected date, the device is
    not mobile, the view is the week or the month, the target key is the
    key of one of the visible dates, its column is not wholly within the
    timeline viewport, and the position scrolled to is the column's left
    edge minus half the spare width, kept between 0 and the largest scroll
    position. *)
Theorem scrollToTarget_within
    (isMobile : bool) (viewMode : ViewMode.t) (targetDateKey : option string)
    (visibleDates : list Date)
    (clientWidth scrollLeft employeeColumnWidth' columnWidth' totalGridWidth : Q)
    (left : number) :
  scrollToTarget isMobile viewMode targetDateKey visibleDates
                 (Fin clientWidth) (Fin scrollLeft) (Fin employeeColumnWidth')
                 (Fin columnWidth') (Fin totalGridWidth) = Some left ->
  isMobile = false /\ viewMode <> ViewMode.day /\
  exists (key : string) (index : nat) (date : Date) (q : Q),
    targetDateKey = Some key /\ key <> "" /\
    nth_error visibleDates index = Some date /\ dateToKey date = key /\
    let width := Qmax (clientWidth - employeeColumnWidth') columnWidth' in
    let columnLeft := (inject_Z (Z.of_nat index) * columnWidth')%Q in
    ~ (scrollLeft <= columnLeft /\ columnLeft + columnWidth' <= scrollLeft + width)%Q /\
    left = Fin q /\
    (q == Qclamp (columnLeft - Qmax ((width - columnWidth') / 2) 0) 0
                 (Qmax (totalGridWidth - clientWidth) 0))%Q /\
    (0 <= q <= Qmax (totalGridWidth - clientWidth) 0)%Q.
Proof.
  unfold scrollToTarget. intro H.
  destruct isMobile; [discriminate H|]. split; [reflexivity|].
  split; [intros ->; discriminate H|].
  assert (H' :
    match targetDateKey with
    | None => None
    | Some key =>
        if String.eqb key "" then None
        else
          let targetIndex :=
            findIndex (fun date => String.eqb (dateToKey date) key) visibleDates in
          if targetIndex <? 0 then None
          else
            let timelineViewportWidth :=
              Math_max (sub (Fin clientWidth) (Fin employeeColumnWidth')) (Fin columnWidth') in
            let targetColumnLeft := mul (Int targetIndex) (Fin columnWidth') in
            let targetColumnRight := add targetColumnLeft (Fin columnWidth') in
            let currentTimelineRight := add (Fin scrollLeft) timelineViewportWidth in
            if le (Fin scrollLeft) targetColumnLeft
               && le targetColumnRight currentTimelineRight
            then None
            else
              Some (clamp (sub targetColumnLeft
                               (Math_max (div (sub timelineViewportWidth (Fin columnWidth'))
                                              (Int 2)) (Int 0)))
                          (Int 0)
                          (Math_max (sub (Fin totalGridWidth) (Fin clientWidth)) (Int 0)))
    end = Some left) by (destruct viewMode; [discriminate H|exact H|exact H]).
  clear H. destruct targetDateKey as [key|]; [|discriminate H'].
  destruct (String.eqb_spec key "") as [|Hkey]; [discriminate H'|].
  cbv zeta in H'. unfold findIndex in H'.
  destruct (findIndex_from_spec (fun date => String.eqb (dateToKey date) key)
              visibleDates 0 ltac:(lia)) as [(F & _)|(B & date & Hd & Pd)].
  - rewrite F in H'. discriminate H'.
  - set (targetIndex := findIndex_from _ visibleDates 0) in *.
    replace (targetIndex <? 0) with false in H' by (symmetry; apply Z.ltb_ge; lia).
    rewrite Z.sub_0_r in Hd.
    exists key, (Z.to_nat targetIndex), date.
    change (sub (Fin clientWidth) (Fin employeeColumnWidth'))
      with (Fin (clientWidth - employeeColumnWidth')) in H'.
    rewrite Math_max_Fin in H'.
    set (width := Qmax (clientWidth - employeeColumnWidth') columnWidth') in *.
    change (mul (Int targetIndex) (Fin columnWidth'))
      with (Fin (inject_Z targetIndex * columnWidth')) in H'.
    rewrite Z2Nat.id by lia.
    set (columnLeft := (inject_Z targetIndex * columnWidth')%Q) in *.
    change (add (Fin columnLeft) (Fin columnWidth')) with (Fin (columnLeft + columnWidth')) in H'.
    change (add (Fin scrollLeft) (Fin width)) with (Fin (scrollLeft + width)) in H'.
    change (sub (Fin width) (Fin columnWidth')) with (Fin (width - columnWidth')) in H'.
    change (sub (Fin totalGridWidth) (Fin clientWidth))
      with (Fin (totalGridWidth - clientWidth)) in H'.
    change (Int 2) with (Fin 2) in H'. change (Int 0) with (Fin 0) in H'.
    rewrite div_Fin in H' by discriminate.
    rewrite !Math_max_Fin in H'.
    change (sub (Fin columnLeft) (Fin (Qmax ((width - columnWidth') / 2) 0)))
      with (Fin (columnLeft - Qmax ((width - columnWidth') / 2) 0)) in H'.
    rewrite clamp_Fin in H'.
    destruct (le (Fin scrollLeft) (Fin columnLeft)
              && le (Fin (columnLeft + columnWidth')) (Fin (scrollLeft + width))) eqn:V;
      [discriminate H'|].
    injection H' as <-.
    eexists. split; [reflexivity|]. split; [exact Hkey|]. split; [exact Hd|].
    split; [now apply String.eqb_eq|]. cbv zeta.
    split; [|split; [reflexivity|split; [reflexivity|]]].
    + intros [L R]. apply le_Fin in L, R. rewrite L, R in V. discriminate V.
    + unfold Qclamp. split.
      * apply Q.min_glb; [apply Q.le_max_r|apply Q.le_max_r].
      * apply Q.le_min_r.
Qed.

Lemma scrollToTarget_within_witness :
  let dates := [LocalDay 20758; LocalDay 20759; LocalDay 20760; LocalDay 20761;
                LocalDay 20762; LocalDay 20763; LocalDay 20764] in
  scrollToTarget false ViewMode.month (Some "2026-11-06") dates
                 (Fin 500) (Fin 0) (Fin 180) (Fin 160) (Fin 1300) = Some (Fin (1440 # 2)) /\
  exists (key : string) (index : nat) (date : Date) (q : Q),
    Some "2026-11-06" = Some key /\ key <> "" /\
    nth_error dates index = Some date /\ dateToKey date = key /\
    let width := Qmax (500 - 180) 160 in
    let columnLeft := (inject_Z (Z.of_nat index) * 160)%Q in
    ~ (0 <= columnLeft /\ columnLeft + 160 <= 0 + width)%Q /\
    Fin (1440 # 2) = Fin q /\
    (q == Qclamp (columnLeft - Qmax ((width - 160) / 2) 0) 0 (Qmax (1300 - 500) 0))%Q /\
    (0 <= q <= Qmax (1300 - 500) 0)%Q.
Proof.
  intro dates.
  assert (E : scrollToTarget false ViewMode.month (Some "2026-11-06") dates
                (Fin 500) (Fin 0) (Fin 180) (Fin 160) (Fin 1300) = Some (Fin (1440 # 2)))
    by (vm_compute; reflexivity).
  split; [exact E|].
  exact (proj2 (proj2 (scrollToTarget_within false ViewMode.month (Some "2026-11-06") dates
                         500 0 180 160 1300 (Fin (1440 # 2)) E))).
Defined.

End ScrollTarget.

(* ================================================================== *)
(** ** The lanes of a date cell *)

Section Lanes.




End Lanes.

(* ================================================================== *)
(** ** The stored view mode *)

Section StoredViewMode.

(** X25.  The view mode the component stores is the one it starts in
    next time; when reading it throws, or nothing or anything but the
    three mode names is stored, it starts in the day view. *)
Theorem getInitialViewMode_restores :
  (forall mode, getInitialViewMode (item (Some (string_of_viewMode mode))) = mode) /\
  (forall stored,
     getInitialViewMode stored <> ViewMode.day ->
     stored = item (Some (string_of_viewMode (getInitialViewMode stored)))) /\
  getInitialViewMode getItem_throws = ViewMode.day /\
  getInitialViewMode (item None) = ViewMode.day.
Proof.
  split; [now intros []|]. split; [|split; reflexivity].
  intros [|[value|]] H; try (now contradiction H).
  unfold getInitialViewMode, isViewMode, viewMode_of_string in *.
  destruct (String.eqb_spec value "day") as [Ed|_];
    [rewrite Ed in *; now contradiction H|].
  destruct (String.eqb_spec value "week") as [Ew|_]; [now rewrite Ew|].
  destruct (String.eqb_spec value "month") as [Em|_]; [now rewrite Em|].
  rewrite andb_false_r in H. now contradiction H.
Qed.

Lemma getInitialViewMode_restores_witness :
  item (Some "week") = item (Some (string_of_viewMode (getInitialViewMode (item (Some "week"))))).
Proof.
  apply (proj1 (proj2 getInitialViewMode_restores) (item (Some "week"))).
  discriminate.
Defined.

End StoredViewMode.

(* ================================================================== *)
(** ** The handlers and the shift invariants *)

Section HandlersKeepInvariants.

Variable t : Translations.
Variable uuid : string.

(** A time string with a colon does not parse to NaN. *)
Lemma parseTime_colon_not_NaN (value : string) :
  In ":"%char (list_ascii_of_string value) -> parseTime value <> Some NaN.
Proof.
  intros Hc H. unfold parseTime in H.
  destruct (split ":" value) as [|hs [|ms rest]] eqn:Es.
  - now apply split_nonempty in Es.
  - pose proof (split_one_no_sep _ _ _ Es _ Hc) as F. discriminate F.
  - cbn [map nth_error] in H.
    destruct (Number hs) as [|a|h]; destruct (Number ms) as [|b|m];
      cbn [Number_isNaN ToNumber orb] in H; try discriminate H.
    + destruct a; cbn in H; try discriminate H.
    + destruct a; cbn in H; try discriminate H.
    + destruct b; cbn [lt gt Int negb orb] in H;
        rewrite ?orb_true_r in H; discriminate H.
    + destruct (_ || _) in H; discriminate H.
Qed.

(** X26.  Both drop handlers keep the shift invariants: after a drop onto
    a date cell, or onto the day timeline at any finite pointer position
    and row rectangle, every shift still has whole bounds that are
    multiples of 15 with [0 <= start < end <= 1440] and at least 30
    minutes between them. *)
Theorem drops_keep_invariants
    (shiftId E D : string) (clientX rect_left rect_width : Q) (prev : list Shift) :
  Forall valid_shift prev ->
  Forall valid_shift (handleDropOnDateCell shiftId E D prev) /\
  Forall valid_shift
    (handleDropOnTimeline shiftId (Fin clientX) (Fin rect_left) (Fin rect_width) E D prev).
Proof.
  intro H. split.
  - now apply handleDropOnDateCell_preserves_valid.
  - now apply handleDropOnTimeline_preserves_valid.
Qed.

Lemma drops_keep_invariants_witness :
  let shift := {| id := "s"; employeeId := "e1"; dateKey := "2024-01-15";
                  title := "t"; start := Int 540; end_ := Int 780 |} in
  Forall valid_shift (handleDropOnDateCell "s" "e2" "2024-01-16" [shift]) /\
  Forall valid_shift
    (handleDropOnTimeline "s" (Fin 1700) (Fin 180) (Fin 1728) "e2" "2024-01-16" [shift]).
Proof.
  intro shift.
  apply (drops_keep_invariants "s" "e2" "2024-01-16" 1700 180 1728 [shift]).
  constructor; [|constructor].
  exists 540, 780. repeat split; try reflexivity; try lia.
  - now exists 36.
  - now exists 52.
Defined.

(** X27.  When both time fields of the draft contain a colon, as every
    value of a filled time input does, the save handler keeps the shift
    invariants, whether it creates, edits or rejects. *)
Theorem save_keeps_invariants_with_colons (st : ModalState) :
  Forall valid_shift (shifts st) ->
  (forall draft, modalDraft st = Some draft ->
     In ":"%char (list_ascii_of_string (ModalDraft.startTime draft)) /\
     In ":"%char (list_ascii_of_string (ModalDraft.endTime draft))) ->
  Forall valid_shift (shifts (handleSaveShift t uuid st)).
Proof.
  intros Hv Hc. apply handleSaveShift_preserves_valid; [exact Hv|].
  intros draft Hd. destruct (Hc draft Hd) as [Hs He].
  split; now apply parseTime_colon_not_NaN.
Qed.

(** X30.  A save is all or nothing, whatever the draft holds: either it
    is rejected, with a message set, the draft still open and the
    collection as it was, or it is accepted, with the modal closed, no
    message, and the collection of the same length (an edit) or one longer
    (a create). *)
Theorem save_is_all_or_nothing (st : ModalState) (draft : ModalDraft.t) :
  modalDraft st = Some draft ->
  let st' := handleSaveShift t uuid st in
  (shifts st' = shifts st /\ modalDraft st' = Some draft /\
   exists message, error st' = Some message) \/
  (modalDraft st' = None /\ error st' = None /\
   (List.length (shifts st') = List.length (shifts st) \/
    List.length (shifts st') = S (List.length (shifts st)))).
Proof.
  intros Hd st'. unfold st', handleSaveShift. rewrite Hd.
  assert (Rej : forall message,
            let r := setError message st in
            shifts r = shifts st /\ modalDraft r = Some draft /\
            exists message', error r = Some message')
    by (intro message; cbn; rewrite Hd; repeat split; now eexists).
  destruct (parseDateKey (ModalDraft.dateKey draft)); [|left; apply Rej].
  destruct (parseTime (ModalDraft.startTime draft)) as [x|]; [|left; apply Rej].
  destruct (parseTime (ModalDraft.endTime draft)) as [y|]; [|left; apply Rej].
  cbv zeta.
  destruct (le (snapToStep y) (snapToStep x)); [left; apply Rej|].
  destruct (lt (sub (snapToStep y) (snapToStep x)) MIN_SHIFT_MINUTES);
    [left; apply Rej|].
  right.
  destruct (ModalDraft.mode draft); [|destruct (ModalDraft.shiftId draft) as [sid|]];
    try (destruct (String.eqb sid ""));
    cbn [closeModal setShifts shifts modalDraft error];
    (split; [reflexivity|]); (split; [reflexivity|]);
    rewrite ?length_map, ?length_app; cbn [List.length]; auto; right; lia.
Qed.

End HandlersKeepInvariants.

Lemma save_is_all_or_nothing_witness :
  let draft := {| ModalDraft.mode := create;
                  ModalDraft.shiftId := None;
                  ModalDraft.employeeId := "e1";
                  ModalDraft.dateKey := "2024-01-15";
                  ModalDraft.title := "Shift";
                  ModalDraft.startTime := "09:00";
                  ModalDraft.endTime := "09:20" |} in
  let st := {| shifts := []; modalDraft := Some draft; error := None |} in
  let st' := handleSaveShift translations_en "generated-id" st in
  error st' = Some "Minimum shift duration — 30 min" /\
  ((shifts st' = shifts st /\ modalDraft st' = Some draft /\
    exists message, error st' = Some message) \/
   (modalDraft st' = None /\ error st' = None /\
    (List.length (shifts st') = List.length (shifts st) \/
     List.length (shifts st') = S (List.length (shifts st))))).
Proof.
  intros draft st. split; [vm_compute; reflexivity|].
  apply (save_is_all_or_nothing translations_en "generated-id" st draft).
  reflexivity.
Defined.

Lemma save_keeps_invariants_with_colons_witness :
  let old := {| id := "s1"; employeeId := "e1"; dateKey := "2024-01-15";
                title := "Morning"; start := Int 540; end_ := Int 780 |} in
  let draft := {| ModalDraft.mode := edit;
                  ModalDraft.shiftId := Some "s1";
                  ModalDraft.employeeId := "e1";
                  ModalDraft.dateKey := "2024-01-15";
                  ModalDraft.title := "Morning";
                  ModalDraft.startTime := "10:07";
                  ModalDraft.endTime := "13:00" |} in
  let st := {| shifts := [old]; modalDraft := Some draft; error := None |} in
  shifts (handleSaveShift translations_en "generated-id" st) = [with_times old (Int 600) (Int 780)] /\
  Forall valid_shift (shifts (handleSaveShift translations_en "generated-id" st)).
Proof.
  intros old draft st. split; [vm_compute; reflexivity|].
  apply (save_keeps_invariants_with_colons translations_en "generated-id" st).
  - constructor; [|constructor].
    exists 540, 780. repeat split; try reflexivity; try lia.
    + now exists 36.
    + now exists 52.
  - intros d Hd. injection Hd as <-. split; cbn; auto 10.
Defined.

(* ================================================================== *)
(** ** What the grid renders *)

Section RenderedGrid.

Lemma viewport_bound (x : Q) (h : Z) :
  Math_max (sub (Fin x) (Int h)) (Int 0) = Fin (Qmax (x - inject_Z h) 0).
Proof.
  change (sub (Fin x) (Int h)) with (Fin (x - inject_Z h)).
  change (Int 0) with (Fin 0). apply Math_max_Fin.
Qed.

Lemma add_Fin (p q : Q) : add (Fin p) (Fin q) = Fin (p + q).
Proof. reflexivity. Qed.

(** The bounds of a range over a viewport that is not reversed are in
    order. *)
Lemma range_ordered (n o : Z) (s vs ve : Q) :
  0 < n -> 0 <= o -> (0 < s)%Q -> (vs <= ve)%Q ->
  0 <= Zclamp (Qfloor (Qmax vs 0 / s) - o) 0 (n - 1) /\
  Zclamp (Qfloor (Qmax vs 0 / s) - o) 0 (n - 1)
    <= Zclamp (Qceiling (Qmax ve 0 / s) + o) 0 (n - 1) /\
  Zclamp (Qceiling (Qmax ve 0 / s) + o) 0 (n - 1) <= n - 1.
Proof.
  intros Hn Ho Hs Hv.
  assert (M : (Qmax vs 0 <= Qmax ve 0)%Q) by (apply Q.max_le_compat_r; exact Hv).
  assert (D : (Qmax vs 0 / s <= Qmax ve 0 / s)%Q).
  { unfold Qdiv. apply Qmult_le_compat_r; [exact M|].
    apply Qlt_le_weak, Qinv_lt_0_compat, Hs. }
  pose proof (Qfloor_le (Qmax vs 0 / s)) as F.
  pose proof (Qle_ceiling (Qmax ve 0 / s)) as C.
  assert (L : (inject_Z (Qfloor (Qmax vs 0 / s)) <= inject_Z (Qceiling (Qmax ve 0 / s)))%Q)
    by lra.
  rewrite <- Zle_Qle in L. unfold Zclamp. lia.
Qed.

(** X28.  Whatever the scroll position and the measured size of the
    viewport, for every view mode with at least one column the grid
    renders at least one row and one column: both ranges have integral
    bounds in order, the rows within the 15 employees and the columns
    within the columns of the view. *)
Theorem rendered_ranges_not_empty
    (viewMode : ViewMode.t) (isMobile : bool) (dates : list Date)
    (width height scrollTop scrollLeft : Q) :
  let virtualViewport :=
    {| VirtualViewport.width := Fin width; VirtualViewport.height := Fin height;
       VirtualViewport.scrollTop := Fin scrollTop;
       VirtualViewport.scrollLeft := Fin scrollLeft |} in
  let columns :=
    match viewMode with
    | ViewMode.day => 24
    | _ => Z.of_nat (List.length dates)
    end in
  0 < columns ->
  exists r0 r1 c0 c1,
    visibleRowRange virtualViewport =
      {| VirtualRange.start := Int r0; VirtualRange.end_ := Int r1 |} /\
    0 <= r0 <= r1 /\ r1 <= 14 /\
    visibleColumnRange viewMode isMobile dates virtualViewport =
      {| VirtualRange.start := Int c0; VirtualRange.end_ := Int c1 |} /\
    0 <= c0 <= c1 /\ c1 <= columns - 1.
Proof.
  intros virtualViewport columns Hc.
  unfold visibleRowRange, visibleColumnRange, virtualViewport.
  cbn [VirtualViewport.width VirtualViewport.height
       VirtualViewport.scrollTop VirtualViewport.scrollLeft].
  unfold HEADER_HEIGHT. rewrite !viewport_bound, add_Fin.
  assert (Ew : exists e : Z, employeeColumnWidth (Fin width) = Int e)
    by (destruct (employeeColumnWidth_cases (Fin width)) as [-> | ->]; now eexists).
  destruct Ew as (e & ->). rewrite !viewport_bound, add_Fin.
  destruct (columnWidth_Fin viewMode isMobile width) as (cw & -> & Hcw).
  assert (En : columnCount viewMode dates = Int columns)
    by (unfold columns; now destruct viewMode).
  rewrite En.
  unfold employees_length, ROW_HEIGHT, ROW_OVERSCAN, COLUMN_OVERSCAN.
  change (Int 76) with (Fin (inject_Z 76)).
  rewrite (getVirtualRange_Int 15 4 (inject_Z 76)) by (lia || discriminate).
  rewrite (getVirtualRange_Int columns 2 cw) by (lia || lra).
  pose proof (Q.le_max_r (height - inject_Z 54) 0) as Ph.
  pose proof (Q.le_max_r (width - inject_Z e) 0) as Pw.
  destruct (range_ordered 15 4 (inject_Z 76)
              (Qmax (scrollTop - inject_Z 54) 0)
              (Qmax (scrollTop - inject_Z 54) 0 + Qmax (height - inject_Z 54) 0))
    as (R0 & R1 & R2); [lia|lia|reflexivity|lra|].
  destruct (range_ordered columns 2 cw
              (Qmax (scrollLeft - inject_Z e) 0)
              (Qmax (scrollLeft - inject_Z e) 0 + Qmax (width - inject_Z e) 0))
    as (C0 & C1 & C2); [lia|lia|lra|lra|].
  do 4 eexists. split; [reflexivity|]. split; [split; eassumption|].
  split; [exact R2|]. split; [reflexivity|]. split; [split; eassumption|exact C2].
Qed.

Lemma rendered_ranges_not_empty_witness :
  let virtualViewport :=
    {| VirtualViewport.width := Fin 1280; VirtualViewport.height := Fin 720;
       VirtualViewport.scrollTop := Fin 300; VirtualViewport.scrollLeft := Fin 5000 |} in
  visibleRowRange virtualViewport =
    {| VirtualRange.start := Int 0; VirtualRange.end_ := Int 14 |} /\
  exists r0 r1 c0 c1,
    visibleRowRange virtualViewport =
      {| VirtualRange.start := Int r0; VirtualRange.end_ := Int r1 |} /\
    0 <= r0 <= r1 /\ r1 <= 14 /\
    visibleColumnRange ViewMode.day false [] virtualViewport =
      {| VirtualRange.start := Int c0; VirtualRange.end_ := Int c1 |} /\
    0 <= c0 <= c1 /\ c1 <= 24 - 1.
Proof.
  intro virtualViewport. split; [reflexivity|].
  apply (rendered_ranges_not_empty ViewMode.day false [] 1280 720 300 5000). lia.
Defined.



End RenderedGrid.
